(** * smart_support_bot.py: the routing policy of the support bot

    A shallow embedding of [handle_user_message] and of the helpers it
    calls, followed by the properties of the routing policy.

    Modelling conventions.
    - A Python [str] is a [string].  Every pattern, trigger word and FAQ
      key of the program is ASCII, and the text functions below
      ([lower], [upper], [\b], [\d], [split]) follow Python on the code
      points 0..127.  A byte above 127 is kept as a caseless character
      that is neither a word character, a digit nor white space; answer
      texts that contain such bytes are payloads that the policy returns
      and never inspects.  A statement about what the text functions
      find in an arbitrary text is made for ASCII texts ([is_ascii_text]),
      where they are exact.
    - [re.search] is a backtracking matcher over the regular expressions
      the program uses (literals, classes, alternation, greedy optional
      and bounded repetition, [\b], one capturing group).
    - Python dictionaries live in a heap of objects: [model_settings.metadata]
      is a reference, so that the assignment
      [response_metadata["customer_id"] = customer_id] is a heap update
      that the caller can observe.
    - [logging] calls are not modelled: no result depends on them. *)

From Stdlib Require Import Ascii String DecimalString.
From stdpp Require Import gmap strings list fin_maps.

(** ** Characters *)

Module Char.

Definition code (c : ascii) : nat := nat_of_ascii c.

Definition between (lo hi : nat) (c : ascii) : bool :=
  (lo <=? code c) && (code c <=? hi).

Definition is_upper : ascii -> bool := between 65 90.
Definition is_lower : ascii -> bool := between 97 122.
(** [\d] *)
Definition is_digit : ascii -> bool := between 48 57.
(** [\w]: letters, digits and the underscore *)
Definition is_word (c : ascii) : bool :=
  is_upper c || is_lower c || is_digit c || (code c =? 95).
(** the characters [str.split()] separates on: TAB LF VT FF CR, the
    separators FS GS RS US, and the blank *)
Definition is_space (c : ascii) : bool :=
  between 9 13 c || between 28 32 c.

(** a code point of ASCII *)
Definition is_ascii (c : ascii) : bool := code c <? 128.

Definition to_lower (c : ascii) : ascii :=
  if is_upper c then ascii_of_nat (code c + 32) else c.
Definition to_upper (c : ascii) : ascii :=
  if is_lower c then ascii_of_nat (code c - 32) else c.

End Char.

(** ** Strings *)

Fixpoint map_string (f : ascii -> ascii) (s : string) : string :=
  match s with
  | EmptyString => EmptyString
  | String c s' => String (f c) (map_string f s')
  end.

(** [text.lower()] and [text.upper()] *)
Definition lower : string -> string := map_string Char.to_lower.
Definition upper : string -> string := map_string Char.to_upper.

(** [needle in hay] on strings *)
Fixpoint contains (needle hay : string) : bool :=
  String.prefix needle hay ||
  match hay with
  | EmptyString => false
  | String _ hay' => contains needle hay'
  end.

(** [text.split()]: the maximal runs of characters that are not white
    space.  [cur] is the current run, last character first. *)
Definition flush (cur : list ascii) : list string :=
  match cur with
  | [] => []
  | _ => [string_of_list_ascii (rev cur)]
  end.

Fixpoint split_go (cur : list ascii) (s : string) : list string :=
  match s with
  | EmptyString => flush cur
  | String c s' =>
      if Char.is_space c then flush cur ++ split_go [] s'
      else split_go (c :: cur) s'
  end.

Definition split (s : string) : list string := split_go [] s.

(** ** Regular expressions and [re.search] *)

Inductive regex : Type :=
| Eps
| Chr (c : ascii)
| Cls (p : ascii -> bool)
| Seq (r1 r2 : regex)
| Alt (r1 r2 : regex)
| Bnd
| Grp (r : regex).

Fixpoint Lit (s : string) : regex :=
  match s with
  | EmptyString => Eps
  | String c s' => Seq (Chr c) (Lit s')
  end.

(** [r?], greedy *)
Definition Opt (r : regex) : regex := Alt r Eps.

Fixpoint rep_exact (n : nat) (r : regex) : regex :=
  match n with
  | 0 => Eps
  | S n' => Seq r (rep_exact n' r)
  end.

Fixpoint rep_upto (n : nat) (r : regex) : regex :=
  match n with
  | 0 => Eps
  | S n' => Opt (Seq r (rep_upto n' r))
  end.

(** [r{lo,hi}], greedy *)
Definition Rep (lo hi : nat) (r : regex) : regex :=
  Seq (rep_exact lo r) (rep_upto (hi - lo) r).

(** [p1|p2|...] *)
Fixpoint Alts (rs : list regex) : regex :=
  match rs with
  | [] => Cls (fun _ => false)
  | [r] => r
  | r :: rs' => Alt r (Alts rs')
  end.

Definition span : Type := nat * nat.

Definition is_word_at (s : list ascii) (i : nat) : bool :=
  match s !! i with
  | Some c => Char.is_word c
  | None => false
  end.

(** [\b] at position [i]: exactly one of the characters before and at
    [i] is a word character; outside the text there is none. *)
Definition at_boundary (s : list ascii) (i : nat) : bool :=
  xorb (match i with 0 => false | S j => is_word_at s j end) (is_word_at s i).

(** [rmatch r s i g k]: match [r] at position [i] of [s], group 1 being
    [g] so far, and hand the end position and the group to [k]; the
    alternatives are tried in the order of a backtracking matcher and the
    first one that [k] accepts wins. *)
Fixpoint rmatch {R : Type} (r : regex) (s : list ascii) (i : nat)
    (g : option span) (k : nat -> option span -> option R) : option R :=
  match r with
  | Eps => k i g
  | Chr c =>
      match s !! i with
      | Some c' => if decide (c' = c) then k (S i) g else None
      | None => None
      end
  | Cls p =>
      match s !! i with
      | Some c' => if p c' then k (S i) g else None
      | None => None
      end
  | Seq r1 r2 => rmatch r1 s i g (fun j g' => rmatch r2 s j g' k)
  | Alt r1 r2 =>
      match rmatch r1 s i g k with
      | Some x => Some x
      | None => rmatch r2 s i g k
      end
  | Bnd => if at_boundary s i then k i g else None
  | Grp r1 => rmatch r1 s i g (fun j _ => k j (Some (i, j)))
  end.

(** A match object: the span of the whole match and of group 1. *)
Record rematch : Type := ReMatch { whole : span; group1 : option span }.

Definition match_at (r : regex) (s : list ascii) (i : nat) : option rematch :=
  rmatch r s i None (fun j g => Some (ReMatch (i, j) g)).

(** the start positions [i], [i+1], ..., [i+n], leftmost first *)
Fixpoint search_from (r : regex) (s : list ascii) (i n : nat) : option rematch :=
  match match_at r s i with
  | Some m => Some m
  | None =>
      match n with
      | 0 => None
      | S n' => search_from r s (S i) n'
      end
  end.

Definition re_search (r : regex) (s : list ascii) : option rematch :=
  search_from r s 0 (length s).

Definition slice (s : list ascii) (sp : span) : list ascii :=
  take (sp.2 - sp.1) (drop sp.1 s).

(** [r1 r2 ... rn] *)
Fixpoint Cat (rs : list regex) : regex :=
  match rs with
  | [] => Eps
  | [r] => r
  | r :: rs' => Seq r (Cat rs')
  end.

(** [[c1c2...]] *)
Definition one_of (cs : list ascii) (c : ascii) : bool := bool_decide (c ∈ cs).

(** ** The simulated datastore and the patterns *)

(** [FAQS], in the order the dictionary literal declares its keys *)
Definition FAQS : list (string * string) :=
  [ ("return policy",
     "You can return unopened items within 30 days for a full refund.");
    ("shipping time",
     "Standard shipping takes 3–5 business days. Expedited options are available.");
    ("warranty",
     "All electronics include a 1-year limited warranty covering manufacturing defects.") ].

(** [\b(w1|w2|...)\b] *)
Definition word_of (alternatives : list regex) : regex :=
  Cat [Bnd; Grp (Alts alternatives); Bnd].

(** [x\*?rest], as in [f\*?ck] *)
Definition starred (x : ascii) (rest : string) : regex :=
  Cat [Chr x; Opt (Chr "*"); Lit rest].

Definition OFFENSIVE_PATTERNS : list regex :=
  [ word_of [Lit "dumb"; Lit "stupid"; Lit "idiot"; Lit "shut up"; Lit "hate";
             Lit "useless"];
    word_of [starred "f" "ck"; starred "s" "it"; starred "b" "tch";
             starred "a" "shole"] ].

Definition NEGATIVE_SENTIMENT_PATTERNS : list regex :=
  [ word_of [Lit "angry"; Lit "furious"; Lit "terrible"; Lit "awful";
             Lit "worst"; Lit "hate"; Lit "refund now"];
    word_of [Lit "complain"; Lit "complaint"; Lit "speak to manager";
             Lit "not happy"; Lit "disappointed"] ].

(** [\bORD[- ]?(\d{3,6})\b] *)
Definition ORDER_ID_PATTERN : regex :=
  Cat [Bnd; Lit "ORD"; Opt (Cls (one_of ["-"; " "]%char));
       Grp (Rep 3 6 (Cls Char.is_digit)); Bnd].

(** ** Intent and sentiment detection *)

Definition is_order_intent (text : string) : bool :=
  let text := lower text in
  contains "order" text || contains "track" text || contains "status" text.

(** [f"ORD-{num}"]; a group that took no part in the match reads [None] *)
Definition extract_order_id (text : string) : option string :=
  let s := list_ascii_of_string (upper text) in
  match re_search ORDER_ID_PATTERN s with
  | Some m =>
      let num :=
        match group1 m with
        | Some sp => string_of_list_ascii (slice s sp)
        | None => "None"
        end in
      Some ("ORD-" +:+ num)
  | None => None
  end.

Definition is_negative_or_offensive (text : string) : bool :=
  let t := list_ascii_of_string (lower text) in
  existsb (fun pat => bool_decide (is_Some (re_search pat t)))
          (OFFENSIVE_PATTERNS ++ NEGATIVE_SENTIMENT_PATTERNS).

(** the loop over [FAQS.items()], for any table *)
Fixpoint match_faq_in (faqs : list (string * string)) (t : string) : option string :=
  match faqs with
  | [] => None
  | (k, v) :: faqs' => if contains k t then Some v else match_faq_in faqs' t
  end.

Definition match_faq (text : string) : option string :=
  match_faq_in FAQS (lower text).

(** ** Python values, dictionaries and the heap *)

Inductive value : Type :=
| VNone
| VBool (b : bool)
| VInt (n : Z)
| VStr (s : string).

Global Instance value_eq_dec : EqDecision value.
Proof. solve_decision. Defined.

(** [Dict[str, Any]] *)
Abbreviation dict := (gmap string value).

(** The dictionaries alive in the program, by reference. *)
Abbreviation loc := nat (only parsing).
Abbreviation heap := (list dict).

(** Computations that read and update the heap.  They have no result
    ([None]) where Python raises, and on a reference that is not in the
    heap, which a Python state never holds. *)
Definition M (A : Type) : Type := heap -> option (A * heap).

Global Instance M_ret : MRet M := fun A x h => Some (x, h).
Global Instance M_bind : MBind M := fun A B f m h =>
  match m h with
  | Some (x, h') => f x h'
  | None => None
  end.

(** an exception, or a result, of a computation that leaves the heap alone *)
Definition lift {A : Type} (o : option A) : M A :=
  fun h => match o with Some x => Some (x, h) | None => None end.

(** [{}] and other dictionary displays: a new object *)
Definition new_dict (d : dict) : M loc :=
  fun h => Some (length h, h ++ [d]).

(** the truth value of a dictionary: it is not empty *)
Definition dict_truthy (l : loc) : M bool :=
  fun h => match h !! l with
           | Some d => Some (bool_decide (d ≠ ∅), h)
           | None => None
           end.

(** [d[k] = v], in place *)
Definition setitem (l : loc) (k : string) (v : value) : M unit :=
  fun h => match h !! l with
           | Some d => Some (tt, <[l := <[k := v]> d]> h)
           | None => None
           end.

(** the truth value of a [str | None] *)
Definition str_truthy (o : option string) : bool :=
  match o with
  | Some s => negb (bool_decide (s = ""))
  | None => false
  end.

(** [f"{x}"] of a [str | None] *)
Definition fmt (o : option string) : string := default "None" o.

(** ** The order tool's switch *)

(** [context.get("last_user_message", "")], then [is_order_intent]; a
    value that is not a string has no [lower] method. *)
Definition _order_tool_enabled (context : dict) : option bool :=
  match default (VStr "") (context !! "last_user_message") with
  | VStr text => Some (is_order_intent text)
  | _ => None
  end.

(** ** Agents, settings and results *)

Inductive agent : Type := human_agent | bot_agent.

Record ModelSettings : Type := {
  tool_choice : string;
  metadata : option loc
}.

(** [Handoff(to=..., reason=..., context=...)] *)
Record Handoff : Type := {
  to : agent;
  reason : string;
  context : dict
}.

(** [agent.run(prompt, context=..., model_settings={"tool_choice": ...,
    "metadata": ...})]: the call handed to the agent runtime.  The
    metadata is the dictionary object itself, not a copy. *)
Record Run : Type := {
  run_agent : agent;
  prompt : string;
  run_context : dict;
  run_tool_choice : string;
  run_metadata : loc
}.

(** What [handle_user_message] returns: a string for the customer, a
    handoff, or the outcome of a run of the bot agent with the order
    tool. *)
Inductive result : Type :=
| Reply (text : string)
| Escalate (h : Handoff)
| Invoke (r : Run).

Definition NEGATIVE_REASON : string :=
  "Detected negative sentiment or offensive language. Human empathy required.".
Definition TOOL_UNUSABLE_REASON : string :=
  "Order tool not available or order ID missing; requires human assistance.".
Definition COMPLEX_REASON : string := "Complex or ambiguous request.".
Definition ASK_FOR_ID : string :=
  "Could you share your order ID (e.g., ORD-1001) so I can check the status?".
Definition DEFAULT_HELP : string :=
  "I can help with order tracking (share your order ID like ORD-1001) " +:+
  "or answer policies like shipping time, warranty, and returns.".

(** [{"last_user_message": message, "customer_id": customer_id}] *)
Definition make_context (message customer_id : string) : dict :=
  <["customer_id" := VStr customer_id]> {["last_user_message" := VStr message]}.

Definition handoff (why : string) (message customer_id : string) : result :=
  Escalate {| to := human_agent; reason := why;
              context := make_context message customer_id |}.

(** ** Routing *)

(** [response_metadata = model_settings.metadata or {}] and
    [response_metadata["customer_id"] = customer_id]: the caller's
    dictionary when there is one and it is not empty, a new one
    otherwise, updated in place. *)
Definition response_metadata_of (model_settings : ModelSettings)
    (customer_id : string) : M loc :=
  response_metadata ←
    match metadata model_settings with
    | Some l => t ← dict_truthy l; if t : bool then mret l else new_dict ∅
    | None => new_dict ∅
    end;
  _ ← setitem response_metadata "customer_id" (VStr customer_id);
  mret response_metadata.

(** Steps 4 and 5 of [handle_user_message]. *)
Definition order_or_default (message customer_id : string)
    (model_settings : ModelSettings) (order_intent : bool)
    (order_id : option string) : M result :=
  let ctx := make_context message customer_id in
  response_metadata ← response_metadata_of model_settings customer_id;
  if order_intent then
    if decide (tool_choice model_settings = "required") then
      enabled ← lift (_order_tool_enabled ctx);
      if enabled && str_truthy order_id then
        mret (Invoke {| run_agent := bot_agent;
                        prompt := "Fetch the status for " +:+ fmt order_id +:+ ".";
                        run_context := ctx;
                        run_tool_choice := "required";
                        run_metadata := response_metadata |})
      else
        mret (handoff TOOL_UNUSABLE_REASON message customer_id)
    else
      if str_truthy order_id then
        mret (Invoke {| run_agent := bot_agent;
                        prompt := "User asks to track order " +:+ fmt order_id
                                  +:+ ". Use the tool if available.";
                        run_context := ctx;
                        run_tool_choice := "auto";
                        run_metadata := response_metadata |})
      else
        mret (Reply ASK_FOR_ID)
  else if (40 <? length (split message))
          || contains "complicated" (lower message)
          || contains "legal" (lower message) then
    mret (handoff COMPLEX_REASON message customer_id)
  else
    mret (Reply DEFAULT_HELP).

Definition handle_user_message (message customer_id : string)
    (model_settings : ModelSettings) : M result :=
  let negative := is_negative_or_offensive message in
  let order_intent := is_order_intent message in
  let order_id := extract_order_id message in
  let steps_4_5 :=
    order_or_default message customer_id model_settings order_intent order_id in
  if negative then
    mret (handoff NEGATIVE_REASON message customer_id)
  else
    match match_faq message with
    | Some faq_answer =>
        if str_truthy (Some faq_answer) && negb order_intent then
          mret (Reply faq_answer)
        else steps_4_5
    | None => steps_4_5
    end.

(** The default argument [ModelSettings(tool_choice="auto", metadata=None)]. *)
Definition default_settings : ModelSettings :=
  {| tool_choice := "auto"; metadata := None |}.

(** ** Predicates of the statements *)

(** The settings refer to a dictionary of the heap, or to [None]. *)
Definition metadata_ok (h : heap) (model_settings : ModelSettings) : Prop :=
  ∀ l, metadata model_settings = Some l → is_Some (h !! l).

(** Two results are the same action: the same variant with the same
    fields, the metadata of a run being compared by the contents of the
    dictionary in the heap where the result is observed. *)
Definition same_action (h1 : heap) (r1 : result) (h2 : heap) (r2 : result) : Prop :=
  match r1, r2 with
  | Reply t1, Reply t2 => t1 = t2
  | Escalate a, Escalate b => a = b
  | Invoke a, Invoke b =>
      run_agent a = run_agent b ∧ prompt a = prompt b
      ∧ run_context a = run_context b
      ∧ run_tool_choice a = run_tool_choice b
      ∧ is_Some (h1 !! run_metadata a)
      ∧ h1 !! run_metadata a = h2 !! run_metadata b
  | _, _ => False
  end.

(** A value of [tool_choice] other than ["auto"] and ["required"] is
    refused: the call raises, whatever the message. *)
Definition unknown_tool_choice_rejected : Prop :=
  ∀ message customer_id model_settings (h : heap),
    metadata_ok h model_settings →
    tool_choice model_settings ≠ "auto" →
    tool_choice model_settings ≠ "required" →
    handle_user_message message customer_id model_settings h = None.

(** The same settings with another [tool_choice]. *)
Definition with_tool_choice (tc : string) (model_settings : ModelSettings) : ModelSettings :=
  {| tool_choice := tc; metadata := metadata model_settings |}.

(** Every character of a string satisfies [p]. *)
Fixpoint all_chars (p : ascii → bool) (s : string) : bool :=
  match s with
  | EmptyString => true
  | String c s' => p c && all_chars p s'
  end.

(** [path r s i g j g']: some way of matching [r] leads from position
    [i] of [s], with group 1 being [g], to position [j] with group 1
    being [g']: the declarative reading of a pattern, priorities left
    aside. *)
Fixpoint path (r : regex) (s : list ascii) (i : nat) (g : option span)
    (j : nat) (g' : option span) : Prop :=
  match r with
  | Eps => j = i ∧ g' = g
  | Chr c => s !! i = Some c ∧ j = S i ∧ g' = g
  | Cls p => (∃ c, s !! i = Some c ∧ p c = true) ∧ j = S i ∧ g' = g
  | Seq r1 r2 => ∃ m gm, path r1 s i g m gm ∧ path r2 s m gm j g'
  | Alt r1 r2 => path r1 s i g j g' ∨ path r2 s i g j g'
  | Bnd => at_boundary s i = true ∧ j = i ∧ g' = g
  | Grp r1 => (∃ g0, path r1 s i g j g0) ∧ g' = Some (i, j)
  end.

(** The text is made of ASCII characters. *)
Definition is_ascii_text (s : string) : bool := all_chars Char.is_ascii s.

(** The [n] characters of [s] from position [i] on exist and satisfy [p]. *)
Definition run_of (p : ascii → bool) (s : list ascii) (i n : nat) : Prop :=
  ∀ q, i ≤ q < i + n → ∃ c, s !! q = Some c ∧ p c = true.

(** What a match of the order pattern looks like. *)
Definition order_shape (s : list ascii) (i j : nat) (g : option span) : Prop :=
  at_boundary s i = true
  ∧ s !! i = Some "O"%char ∧ s !! (i + 1) = Some "R"%char
  ∧ s !! (i + 2) = Some "D"%char
  ∧ ∃ a n,
      (a = i + 3
       ∨ (a = i + 4 ∧ ∃ c, s !! (i + 3) = Some c ∧ one_of ["-"; " "]%char c = true))
      ∧ 3 ≤ n ≤ 6
      ∧ run_of Char.is_digit s a n
      ∧ j = a + n ∧ g = Some (a, j)
      ∧ at_boundary s j = true.

(** The text ends, or starts, with a word character. *)
Definition word_at_end (s : string) : bool :=
  match last (list_ascii_of_string s) with
  | Some c => Char.is_word c
  | None => false
  end.

Definition word_at_start (s : string) : bool :=
  match s with
  | String c _ => Char.is_word c
  | EmptyString => false
  end.

(** A canonical identifier, [ORD-] and 3 to 6 digits, is extracted from
    any text around it. *)
Definition order_id_found_anywhere : Prop :=
  ∀ pre digits post,
    is_ascii_text pre = true → is_ascii_text post = true →
    all_chars Char.is_digit digits = true →
    3 ≤ String.length digits ≤ 6 →
    extract_order_id (pre +:+ "ORD-" +:+ digits +:+ post)
    = Some ("ORD-" +:+ digits).

(** ** The guardrail *)

(** the replacement text [gentle] *)
Definition GENTLE : string :=
  "I’m here to help. Let’s keep things respectful so I can assist you quickly. " +:+
  "Could you please restate your request? For example: " +:+
  "‘Please check my order status ORD-1234’ or ‘What is your return policy?’".

(** [civility_guardrail_fn]: the pair of the verdict and of the text to go on with *)
Definition civility_guardrail_fn (user_input : string) : bool * string :=
  if is_negative_or_offensive user_input then (false, GENTLE)
  else (true, user_input).

(** ** The order tool *)

(** An entry of [ORDERS]: [carrier] may be [None]. *)
Record order : Type := {
  status : string;
  eta : string;
  carrier : option string
}.

Definition ORDERS : gmap string order :=
  list_to_map
    [ ("ORD-1001", {| status := "Shipped"; eta := "2-3 business days";
                      carrier := Some "DHL" |});
      ("ORD-1002", {| status := "Processing"; eta := "N/A"; carrier := None |});
      ("ORD-1003", {| status := "Delivered"; eta := "N/A";
                      carrier := Some "FedEx" |}) ].

Inductive exn : Type :=
| KeyError (msg : string).

(** what a call comes to: a value, or an exception *)
Inductive outcome (A : Type) : Type :=
| Returned (x : A)
| Raised (e : exn).
Arguments Returned {A} x.
Arguments Raised {A} e.

(** [get_order_status], over the table it reads *)
Definition get_order_status_in (orders : gmap string order)
    (order_id : string) : outcome string :=
  match orders !! order_id with
  | None => Raised (KeyError ("Order not found: " +:+ order_id))
  | Some data =>
      let parts := ["Status: " +:+ status data] in
      let parts :=
        if negb (bool_decide (eta data = ""))
           && negb (bool_decide (eta data = "N/A"))
        then parts ++ ["ETA: " +:+ eta data] else parts in
      let parts :=
        if str_truthy (carrier data)
        then parts ++ ["Carrier: " +:+ fmt (carrier data)] else parts in
      Returned ("Order " +:+ order_id +:+ " → " +:+ String.concat ", " parts)
  end.

Definition get_order_status : string → outcome string :=
  get_order_status_in ORDERS.

(** [f"{x}"] of a value *)
Definition str_of_value (v : value) : string :=
  match v with
  | VNone => "None"
  | VBool true => "True"
  | VBool false => "False"
  | VInt n => NilZero.string_of_int (Z.to_int n)
  | VStr s => s
  end.

(** [_order_tool_error]: the message for the customer; the exception
    itself only goes to the log. *)
Definition _order_tool_error (err : exn) (args : dict) : string :=
  let order_id := default (VStr "UNKNOWN") (args !! "order_id") in
  "Sorry, I couldn’t find details for order '" +:+ str_of_value order_id +:+ "'. " +:+
  "Please double-check the ID (e.g., ORD-1001) or ask me to connect you to a human agent.".

(** ** Predicates of further statements *)

(** The words and phrases the four patterns spell out, [x\*?rest]
    giving two each. *)
Definition LISTED_WORDS : list string :=
  [ "dumb"; "stupid"; "idiot"; "shut up"; "hate"; "useless";
    "fck"; "f*ck"; "sit"; "s*it"; "btch"; "b*tch"; "ashole"; "a*shole";
    "angry"; "furious"; "terrible"; "awful"; "worst"; "refund now";
    "complain"; "complaint"; "speak to manager"; "not happy"; "disappointed" ].

(** The ways an order identifier is written: [ORD] in any case, then a
    hyphen, a blank or nothing. *)
Definition is_ord (w : string) : bool := bool_decide (upper w = "ORD").
Definition is_separator (sep : string) : bool :=
  bool_decide (sep ∈ [""; "-"; " "]).

(** What step 5 calls a complex request. *)
Definition is_complex (message : string) : bool :=
  (40 <? length (split message))
  || contains "complicated" (lower message)
  || contains "legal" (lower message).

(** The metadata the caller passed: the contents of the dictionary, or
    nothing for [None]. *)
Definition caller_metadata (h : heap) (model_settings : ModelSettings) : dict :=
  match metadata model_settings with
  | Some l => default ∅ (h !! l)
  | None => ∅
  end.
(** * Properties *)

(** ** The heap and the response metadata *)

Lemma M_bind_eq {A B : Type} (f : A → M B) (m : M A) (h : heap) :
  (x ← m; f x) h = match m h with Some (x, h') => f x h' | None => None end.
Proof. reflexivity. Qed.

(** The caller's dictionary is used, and written to, when it is not empty. *)
Lemma response_metadata_shared ms cid (h : heap) l (d : dict) :
  metadata ms = Some l → h !! l = Some d → d ≠ ∅ →
  response_metadata_of ms cid h
  = Some (l, <[l := <["customer_id" := VStr cid]> d]> h).
Proof.
  intros Hm Hl Hd. unfold response_metadata_of.
  rewrite Hm, !M_bind_eq. unfold dict_truthy. rewrite Hl.
  rewrite bool_decide_eq_true_2 by done. cbn.
  rewrite M_bind_eq. unfold setitem. by rewrite Hl.
Qed.

(** An empty dictionary of the caller is left alone: a new one is made. *)
Lemma response_metadata_empty ms cid (h : heap) l :
  metadata ms = Some l → h !! l = Some ∅ →
  response_metadata_of ms cid h
  = Some (length h, h ++ [ {["customer_id" := VStr cid]} ]).
Proof.
  intros Hm Hl. unfold response_metadata_of.
  rewrite Hm, !M_bind_eq. unfold dict_truthy. rewrite Hl.
  rewrite bool_decide_eq_false_2 by (intros ?; done). cbn.
  rewrite M_bind_eq. unfold setitem. rewrite lookup_app_r, Nat.sub_diag by lia. cbn.
  rewrite insert_app_r_alt, Nat.sub_diag by lia. by rewrite insert_empty.
Qed.

Lemma response_metadata_none ms cid (h : heap) :
  metadata ms = None →
  response_metadata_of ms cid h
  = Some (length h, h ++ [ {["customer_id" := VStr cid]} ]).
Proof.
  intros Hm. unfold response_metadata_of. rewrite Hm, !M_bind_eq. cbn.
  rewrite M_bind_eq. unfold setitem. rewrite lookup_app_r, Nat.sub_diag by lia. cbn.
  rewrite insert_app_r_alt, Nat.sub_diag by lia. by rewrite insert_empty.
Qed.

(** In every case the dictionary handed on holds the customer id of the
    call under ["customer_id"]. *)
Lemma response_metadata_of_ok ms cid (h : heap) :
  metadata_ok h ms →
  ∃ l h' (d : dict),
    response_metadata_of ms cid h = Some (l, h')
    ∧ h' !! l = Some d ∧ d !! "customer_id" = Some (VStr cid).
Proof.
  intros Hok. destruct (metadata ms) as [l|] eqn:Hm.
  - destruct (Hok l Hm) as [d Hl]. destruct (decide (d = ∅)) as [->|Hd].
    + eexists _, _, _. split; [by eapply response_metadata_empty|].
      split; [by apply list_lookup_middle | by rewrite lookup_singleton_eq].
    + eexists _, _, _. split; [by eapply response_metadata_shared|].
      split; [|apply lookup_insert_eq].
      apply list_lookup_insert_eq. by eapply lookup_lt_Some.
  - eexists _, _, _. split; [by apply response_metadata_none|].
    split; [by apply list_lookup_middle | by rewrite lookup_singleton_eq].
Qed.

(** The context built from a message carries the message and the
    customer id. *)
Lemma make_context_message message cid :
  make_context message cid !! "last_user_message" = Some (VStr message).
Proof. unfold make_context. by rewrite lookup_insert_ne, lookup_singleton_eq. Qed.

Lemma make_context_customer message cid :
  make_context message cid !! "customer_id" = Some (VStr cid).
Proof. unfold make_context. by rewrite lookup_insert_eq. Qed.

(** ** The order tool's switch *)

Lemma order_tool_enabled_reads_message (ctx : dict) text :
  ctx !! "last_user_message" = Some (VStr text) →
  _order_tool_enabled ctx = Some (is_order_intent text).
Proof. intros H. unfold _order_tool_enabled. by rewrite H. Qed.

Lemma order_tool_enabled_default (ctx : dict) :
  ctx !! "last_user_message" = None →
  _order_tool_enabled ctx = Some false.
Proof. intros H. unfold _order_tool_enabled. by rewrite H. Qed.

Lemma order_tool_enabled_context message cid :
  _order_tool_enabled (make_context message cid) = Some (is_order_intent message).
Proof. apply order_tool_enabled_reads_message, make_context_message. Qed.

(** ** Routing *)

(** Steps 4 and 5 once the response metadata is in place. *)
Ltac route_with H :=
  unfold order_or_default; rewrite M_bind_eq, H; cbn beta iota.

Lemma handle_not_answered message cid ms (h : heap) :
  is_negative_or_offensive message = false →
  is_order_intent message = true →
  handle_user_message message cid ms h
  = order_or_default message cid ms true (extract_order_id message) h.
Proof.
  intros Hneg Hoi. unfold handle_user_message. rewrite Hneg, Hoi.
  destruct (match_faq message); [by rewrite andb_false_r|done].
Qed.

(** C1: a message classified negative or offensive is handed to the
    human agent, with the negative-sentiment reason and a context that
    holds the message text and the customer id, whatever else the message
    contains and whatever the settings; the heap is left as it is. In
    particular the result is no string and no run of the bot agent. *)
Theorem negative_always_escalates message cid ms (h : heap) :
  is_negative_or_offensive message = true →
  ∃ ho : Handoff,
    handle_user_message message cid ms h = Some (Escalate ho, h)
    ∧ to ho = human_agent
    ∧ reason ho = NEGATIVE_REASON
    ∧ context ho !! "last_user_message" = Some (VStr message)
    ∧ context ho !! "customer_id" = Some (VStr cid)
    ∧ (∀ t h', handle_user_message message cid ms h ≠ Some (Reply t, h'))
    ∧ (∀ r h', handle_user_message message cid ms h ≠ Some (Invoke r, h')).
Proof.
  intros Hneg. unfold handle_user_message. rewrite Hneg.
  eexists. split; [reflexivity|]. cbn.
  split_and!;
    first [done | apply make_context_message | apply make_context_customer].
Qed.

Lemma negative_always_escalates_witness :
  let message :=
    "This is the worst service ever, I'm furious! Track my order ORD-1003 and tell me your return policy." in
  is_negative_or_offensive message = true
  ∧ match_faq message <> None
  ∧ extract_order_id message = Some "ORD-1003"
  ∧ ∃ ho : Handoff,
      handle_user_message message "CUST-123" default_settings [] = Some (Escalate ho, [])
      ∧ reason ho = NEGATIVE_REASON.
Proof.
  intros message.
  assert (Hneg : is_negative_or_offensive message = true) by (vm_compute; reflexivity).
  split; [exact Hneg|]. split; [vm_compute; discriminate|].
  split; [vm_compute; reflexivity|].
  destruct (negative_always_escalates message "CUST-123" default_settings [] Hneg)
    as (ho & Hrun & _ & Hreason & _).
  exists ho. split; assumption.
Defined.

(** C5: with order intent, no negative wording, no order identifier in
    the message and [tool_choice = "required"], the call returns a handoff
    to the human agent with the tool-unusable reason and the message text
    and customer id in its context; it is never the request for an order
    ID, nor any other string. *)
Theorem required_without_id_escalates message cid ms (h : heap) :
  metadata_ok h ms →
  is_negative_or_offensive message = false →
  is_order_intent message = true →
  extract_order_id message = None →
  tool_choice ms = "required" →
  ∃ (ho : Handoff) (h' : heap),
    handle_user_message message cid ms h = Some (Escalate ho, h')
    ∧ to ho = human_agent
    ∧ reason ho = TOOL_UNUSABLE_REASON
    ∧ context ho !! "last_user_message" = Some (VStr message)
    ∧ context ho !! "customer_id" = Some (VStr cid)
    ∧ (∀ t h'', handle_user_message message cid ms h ≠ Some (Reply t, h'')).
Proof.
  intros Hok Hneg Hoi Hid Hreq.
  destruct (response_metadata_of_ok ms cid h Hok) as (l & h' & d & Hmd & _).
  rewrite handle_not_answered by done. rewrite Hid.
  route_with Hmd. rewrite decide_True by done.
  rewrite M_bind_eq. unfold lift. rewrite order_tool_enabled_context, Hoi. cbn.
  eexists _, h'. split; [reflexivity|]. cbn.
  split_and!;
    first [done | apply make_context_message | apply make_context_customer].
Qed.

Lemma required_without_id_escalates_witness :
  ∃ (ho : Handoff) (h' : heap),
    handle_user_message "I want the status of my order" "CUST-001"
      {| tool_choice := "required"; metadata := Some 0 |}
      [ {["channel" := VStr "mobile-app"]} ]
    = Some (Escalate ho, h')
    ∧ reason ho = TOOL_UNUSABLE_REASON.
Proof.
  destruct (required_without_id_escalates "I want the status of my order" "CUST-001"
              {| tool_choice := "required"; metadata := Some 0 |}
              [ {["channel" := VStr "mobile-app"]} ])
    as (ho & h' & Hrun & _ & Hreason & _).
  - intros l [= <-]. by eexists.
  - vm_compute; reflexivity.
  - vm_compute; reflexivity.
  - vm_compute; reflexivity.
  - reflexivity.
  - exists ho, h'. split; assumption.
Defined.

(** C6: with order intent, no negative wording, no order identifier in
    the message and [tool_choice = "auto"], the call returns the fixed
    request for the order ID; it is neither a run of the bot agent with
    the order tool nor a handoff. *)
Theorem auto_without_id_asks message cid ms (h : heap) :
  metadata_ok h ms →
  is_negative_or_offensive message = false →
  is_order_intent message = true →
  extract_order_id message = None →
  tool_choice ms = "auto" →
  ∃ h' : heap,
    handle_user_message message cid ms h = Some (Reply ASK_FOR_ID, h')
    ∧ (∀ r h'', handle_user_message message cid ms h ≠ Some (Invoke r, h''))
    ∧ (∀ ho h'', handle_user_message message cid ms h ≠ Some (Escalate ho, h'')).
Proof.
  intros Hok Hneg Hoi Hid Hauto.
  destruct (response_metadata_of_ok ms cid h Hok) as (l & h' & d & Hmd & _).
  rewrite handle_not_answered by done. rewrite Hid.
  route_with Hmd. rewrite decide_False by (rewrite Hauto; discriminate).
  cbn. exists h'. done.
Qed.

Lemma auto_without_id_asks_witness :
  ∃ h' : heap,
    handle_user_message "I want the status of my order" "CUST-002"
      {| tool_choice := "auto"; metadata := Some 0 |}
      [ {["channel" := VStr "web"]} ]
    = Some (Reply ASK_FOR_ID, h').
Proof.
  destruct (auto_without_id_asks "I want the status of my order" "CUST-002"
              {| tool_choice := "auto"; metadata := Some 0 |}
              [ {["channel" := VStr "web"]} ])
    as (h' & Hrun & _).
  - intros l [= <-]. by eexists.
  - vm_compute; reflexivity.
  - vm_compute; reflexivity.
  - vm_compute; reflexivity.
  - reflexivity.
  - exists h'. assumption.
Defined.

(** The order identifier that [extract_order_id] returns is never the
    empty string: it counts as true. *)
Lemma extract_order_id_truthy message oid :
  extract_order_id message = Some oid → str_truthy (Some oid) = true.
Proof.
  unfold extract_order_id. destruct (re_search _ _); [|done].
  intros [= <-]. done.
Qed.

(** Steps 4 and 5 are the response metadata followed by a choice that
    does not touch the heap; the reference of the metadata only shows in
    the [run_metadata] field of a run. *)
Lemma order_or_default_shape message cid ms oi oid :
  ∃ f : nat → result,
    (∀ h : heap,
        order_or_default message cid ms oi oid h
        = match response_metadata_of ms cid h with
          | Some (l, h') => Some (f l, h')
          | None => None
          end)
    ∧ (∀ l1 l2 (h1 h2 : heap),
          is_Some (h1 !! l1) → h1 !! l1 = h2 !! l2 →
          same_action h1 (f l1) h2 (f l2))
    ∧ (∀ l r, f l = Invoke r → run_metadata r = l).
Proof.
  unfold order_or_default.
  destruct oi.
  - destruct (decide (tool_choice ms = "required")) as [Hreq|Hreq].
    + rewrite order_tool_enabled_context. 
      destruct (is_order_intent message && str_truthy oid) eqn:Hen.
      * eexists (λ l, Invoke _). split_and!.
        -- intros h. rewrite M_bind_eq.
           destruct (response_metadata_of ms cid h) as [[l h']|]; [|done].
           rewrite M_bind_eq. unfold lift. cbn beta iota. rewrite Hen. reflexivity.
        -- intros; cbn. done.
        -- intros l r [= <-]. done.
      * eexists (λ l, handoff _ _ _). split_and!.
        -- intros h. rewrite M_bind_eq.
           destruct (response_metadata_of ms cid h) as [[l h']|]; [|done].
           rewrite M_bind_eq. unfold lift. cbn beta iota. rewrite Hen. reflexivity.
        -- intros; cbn. done.
        -- intros l r [=].
    + destruct (str_truthy oid) eqn:Hid.
      * eexists (λ l, Invoke _). split_and!.
        -- intros h. rewrite M_bind_eq.
           destruct (response_metadata_of ms cid h) as [[l h']|]; [|done].
           reflexivity.
        -- intros; cbn. done.
        -- intros l r [= <-]. done.
      * eexists (λ l, Reply _). split_and!.
        -- intros h. rewrite M_bind_eq.
           destruct (response_metadata_of ms cid h) as [[l h']|]; [|done].
           reflexivity.
        -- intros; cbn. done.
        -- intros l r [=].
  - destruct ((40 <? length (split message))
              || contains "complicated" (lower message)
              || contains "legal" (lower message)).
    + eexists (λ l, handoff _ _ _). split_and!.
      * intros h. rewrite M_bind_eq.
        destruct (response_metadata_of ms cid h) as [[l h']|]; [|done].
        reflexivity.
      * intros; cbn. done.
      * intros l r [=].
    + eexists (λ l, Reply _). split_and!.
      * intros h. rewrite M_bind_eq.
        destruct (response_metadata_of ms cid h) as [[l h']|]; [|done].
        reflexivity.
      * intros; cbn. done.
      * intros l r [=].
Qed.

(** The call raises nothing when the settings refer to the heap. *)
Lemma handle_user_message_total message cid ms (h : heap) :
  metadata_ok h ms →
  ∃ r (h' : heap), handle_user_message message cid ms h = Some (r, h').
Proof.
  intros Hok.
  destruct (response_metadata_of_ok ms cid h Hok) as (l & h' & d & Hmd & _).
  destruct (order_or_default_shape message cid ms (is_order_intent message)
              (extract_order_id message)) as (f & Hf & _).
  unfold handle_user_message.
  destruct (is_negative_or_offensive message); [by eexists _, _|].
  destruct (match_faq message) as [a|].
  - destruct (str_truthy (Some a) && negb (is_order_intent message));
      [by eexists _, _|].
    rewrite Hf, Hmd. by eexists _, _.
  - rewrite Hf, Hmd. by eexists _, _.
Qed.

(** Only the comparison with ["required"] reads [tool_choice]. *)
Lemma handle_reads_required_only message cid ms tc (h : heap) :
  tool_choice ms ≠ "required" → tc ≠ "required" →
  handle_user_message message cid (with_tool_choice tc ms) h
  = handle_user_message message cid ms h.
Proof.
  intros Hms Htc. unfold handle_user_message, order_or_default.
  unfold response_metadata_of, with_tool_choice. cbn [tool_choice metadata].
  destruct (decide (tc = "required")); [done|].
  destruct (decide (tool_choice ms = "required")); [done|].
  reflexivity.
Qed.

(** C2 as stated fails: with [tool_choice = "sometimes"] the call
    returns the request for the order ID, as ["auto"] does. *)
Lemma unknown_tool_choice_accepted : ¬ unknown_tool_choice_rejected.
Proof.
  intros H.
  specialize (H "I want the status of my order" "CUST-002"
                {| tool_choice := "sometimes"; metadata := None |} []).
  assert (Hrun : handle_user_message "I want the status of my order" "CUST-002"
                   {| tool_choice := "sometimes"; metadata := None |} []
                 = Some (Reply ASK_FOR_ID, [ {["customer_id" := VStr "CUST-002"]} ]))
    by (vm_compute; reflexivity).
  rewrite Hrun in H. discriminate H.
  - intros l [=].
  - discriminate.
  - discriminate.
Qed.

(** C2, amended: no value of [tool_choice] is refused.  The call never
    raises on account of it, and a value that is neither ["auto"] nor
    ["required"] gives the result and the heap that ["auto"] gives. *)
Theorem unknown_tool_choice_runs_as_auto message cid ms (h : heap) :
  metadata_ok h ms →
  tool_choice ms ≠ "auto" →
  tool_choice ms ≠ "required" →
  ∃ r (h' : heap),
    handle_user_message message cid ms h = Some (r, h')
    ∧ handle_user_message message cid (with_tool_choice "auto" ms) h = Some (r, h').
Proof.
  intros Hok _ Hreq.
  destruct (handle_user_message_total message cid ms h Hok) as (r & h' & Hrun).
  exists r, h'. split; [done|].
  by rewrite handle_reads_required_only.
Qed.

Lemma unknown_tool_choice_runs_as_auto_witness :
  let ms := {| tool_choice := "sometimes"; metadata := None |} in
  ∃ r (h' : heap),
    handle_user_message "Track ORD-9999 for me" "CUST-002" ms [] = Some (r, h')
    ∧ handle_user_message "Track ORD-9999 for me" "CUST-002" default_settings []
      = Some (r, h').
Proof.
  intros ms.
  apply (unknown_tool_choice_runs_as_auto "Track ORD-9999 for me" "CUST-002" ms []).
  - intros l [=].
  - discriminate.
  - discriminate.
Defined.

(** C10: the switch of the order tool reads the ["last_user_message"]
    entry of its context and nothing else, the empty string standing in
    for a missing entry; on the context that [handle_user_message] builds
    it is [is_order_intent] of the message.  So in the order branch the
    switch is on, and with [tool_choice = "required"] the message is
    handed off exactly when no order identifier was extracted. *)
Theorem gate_is_order_intent message cid ms (h : heap) :
  (∀ (ctx : dict) text,
      ctx !! "last_user_message" = Some (VStr text) →
      _order_tool_enabled ctx = Some (is_order_intent text))
  ∧ (∀ ctx : dict,
      ctx !! "last_user_message" = None →
      _order_tool_enabled ctx = Some (is_order_intent ""))
  ∧ _order_tool_enabled (make_context message cid) = Some (is_order_intent message)
  ∧ (metadata_ok h ms →
     is_negative_or_offensive message = false →
     is_order_intent message = true →
     tool_choice ms = "required" →
     _order_tool_enabled (make_context message cid) = Some true
     ∧ ∃ r (h' : heap),
         handle_user_message message cid ms h = Some (r, h')
         ∧ (extract_order_id message = None →
            r = handoff TOOL_UNUSABLE_REASON message cid)
         ∧ (∀ oid, extract_order_id message = Some oid →
            ∃ run, r = Invoke run
                   ∧ run_tool_choice run = "required"
                   ∧ prompt run = "Fetch the status for " +:+ oid +:+ ".")).
Proof.
  split_and!.
  - apply order_tool_enabled_reads_message.
  - apply order_tool_enabled_default.
  - apply order_tool_enabled_context.
  - intros Hok Hneg Hoi Hreq. rewrite order_tool_enabled_context, Hoi.
    split; [done|].
    destruct (response_metadata_of_ok ms cid h Hok) as (l & h' & d & Hmd & _).
    rewrite handle_not_answered by done.
    route_with Hmd. rewrite decide_True by done.
    rewrite M_bind_eq. unfold lift.
    rewrite order_tool_enabled_context, Hoi. cbn beta iota.
    destruct (extract_order_id message) as [oid|] eqn:Hid.
    + rewrite (extract_order_id_truthy _ _ Hid). cbn.
      eexists _, _. split; [reflexivity|]. split; [done|].
      intros ? [= <-]. by eexists.
    + cbn. eexists _, _. split; [reflexivity|]. split; [done|]. done.
Qed.

Lemma gate_is_order_intent_witness :
  let message := "Status for ORD-1002 please." in
  let ms := {| tool_choice := "required"; metadata := Some 0 |} in
  let h : heap := [ {["channel" := VStr "mobile-app"]} ] in
  _order_tool_enabled (make_context message "CUST-001") = Some true
  ∧ ∃ run (h' : heap),
      handle_user_message message "CUST-001" ms h = Some (Invoke run, h')
      ∧ prompt run = "Fetch the status for ORD-1002.".
Proof.
  intros message ms h.
  destruct (gate_is_order_intent message "CUST-001" ms h) as (_ & _ & _ & H).
  destruct H as (Hgate & r & h' & Hrun & _ & Hid).
  - intros l [= <-]. by eexists.
  - vm_compute; reflexivity.
  - vm_compute; reflexivity.
  - reflexivity.
  - split; [exact Hgate|].
    destruct (Hid "ORD-1002") as (run & -> & _ & Hprompt);
      [vm_compute; reflexivity|].
    exists run, h'. split; assumption.
Defined.

(** The loop over the FAQ table stops at the first key found in the text. *)
Lemma match_faq_in_first pre k v post t :
  Forall (λ kv : string * string, contains kv.1 t = false) pre →
  contains k t = true →
  match_faq_in (pre ++ (k, v) :: post) t = Some v.
Proof.
  intros Hpre Hk. induction Hpre as [|[k' v'] pre Hk' _ IH]; cbn.
  - by rewrite Hk.
  - cbn in Hk'. by rewrite Hk'.
Qed.

Lemma match_faq_in_none faqs t :
  Forall (λ kv : string * string, contains kv.1 t = false) faqs →
  match_faq_in faqs t = None.
Proof.
  intros H. induction H as [|[k v] faqs Hk _ IH]; cbn; [done|].
  cbn in Hk. by rewrite Hk.
Qed.

(** No stored answer is the empty string. *)
Lemma FAQS_answers_truthy k v : (k, v) ∈ FAQS → str_truthy (Some v) = true.
Proof.
  unfold FAQS. rewrite !elem_of_cons, elem_of_nil.
  intros [[= -> ->]|[[= -> ->]|[[= -> ->]|[]]]]; done.
Qed.

(** C4: a message without negative wording and without order trigger
    word that contains a FAQ key, case ignored, is answered with the
    stored answer of the first topic, in the order of the table, whose
    key it contains; nothing else happens. *)
Theorem faq_answers_first_topic message cid ms (h : heap) pre k v post :
  FAQS = pre ++ (k, v) :: post →
  Forall (λ kv : string * string, contains kv.1 (lower message) = false) pre →
  contains k (lower message) = true →
  is_negative_or_offensive message = false →
  is_order_intent message = false →
  handle_user_message message cid ms h = Some (Reply v, h).
Proof.
  intros Hfaqs Hpre Hk Hneg Hoi.
  assert (Hv : str_truthy (Some v) = true).
  { apply (FAQS_answers_truthy k). rewrite Hfaqs. set_solver. }
  unfold handle_user_message, match_faq.
  rewrite Hneg, Hoi, Hfaqs, (match_faq_in_first pre k v post) by done.
  by rewrite Hv.
Qed.

Lemma faq_answers_first_topic_witness :
  let message := "Tell me about the WARRANTY and the Shipping Time" in
  contains "warranty" (lower message) = true
  ∧ handle_user_message message "CUST-789" default_settings []
    = Some (Reply "Standard shipping takes 3–5 business days. Expedited options are available.", []).
Proof.
  intros message. split; [vm_compute; reflexivity|].
  apply (faq_answers_first_topic message "CUST-789" default_settings []
           [("return policy",
             "You can return unopened items within 30 days for a full refund.")]
           "shipping time" _
           [("warranty",
             "All electronics include a 1-year limited warranty covering manufacturing defects.")]).
  - reflexivity.
  - repeat constructor.
  - vm_compute; reflexivity.
  - vm_compute; reflexivity.
  - vm_compute; reflexivity.
Defined.

(** ** Calling twice *)

(** The response metadata of a second call, made in the heap the first
    call left, has the contents of the first one. *)
Lemma response_metadata_twice ms cid (h : heap) :
  metadata_ok h ms →
  ∃ l1 (h1 : heap) l2 (h2 : heap),
    response_metadata_of ms cid h = Some (l1, h1)
    ∧ response_metadata_of ms cid h1 = Some (l2, h2)
    ∧ is_Some (h1 !! l1)
    ∧ h1 !! l1 = h2 !! l2
    ∧ h2 !! l1 = h2 !! l2.
Proof.
  intros Hok. destruct (metadata ms) as [l|] eqn:Hm.
  - destruct (Hok l Hm) as [d Hl].
    assert (Hlt : l < length h) by by eapply lookup_lt_Some.
    destruct (decide (d = ∅)) as [->|Hd].
    + eexists _, _, _, _.
      split; [by eapply response_metadata_empty|].
      split; [eapply response_metadata_empty; [done|by rewrite lookup_app_l]|].
      rewrite !length_app. cbn [length].
      rewrite (lookup_app_l (h ++ _) _ (length h))
        by (rewrite length_app; cbn; lia).
      rewrite list_lookup_middle by done.
      rewrite list_lookup_middle by (rewrite length_app; cbn; lia).
      by split_and!.
    + set (d' := <["customer_id" := VStr cid]> d).
      assert (Hd' : d' ≠ ∅) by apply insert_non_empty.
      assert (Hl' : <[l := d']> h !! l = Some d')
        by by apply list_lookup_insert_eq.
      eexists _, _, _, _.
      split; [by eapply response_metadata_shared|].
      split; [by eapply response_metadata_shared|].
      assert (Hdd : <["customer_id" := VStr cid]> d' = d')
        by apply insert_insert_eq.
      rewrite list_insert_insert_eq, Hdd, Hl'. by split_and!.
  - eexists _, _, _, _.
    split; [by apply response_metadata_none|].
    split; [by apply response_metadata_none|].
    rewrite !length_app. cbn [length].
    rewrite (lookup_app_l (h ++ _) _ (length h))
      by (rewrite length_app; cbn; lia).
    rewrite list_lookup_middle by done.
    rewrite list_lookup_middle by (rewrite length_app; cbn; lia).
    by split_and!.
Qed.

Lemma same_action_refl (h1 h2 : heap) r :
  (∀ run, r ≠ Invoke run) → same_action h1 r h2 r.
Proof. destruct r as [t|ho|run]; intros H; cbn; [done|done|by destruct (H run)]. Qed.

(** C9: two calls with the same message, customer id and settings, the
    second made in the heap the first one left, both return, and return
    the same action: the same variant with the same text, reason,
    context, prompt and tool choice, and metadata with the same contents,
    whether they are compared as each call returned them or both after
    the second call.  A third call changes nothing any more. *)
Theorem handle_user_message_repeatable message cid ms (h : heap) :
  metadata_ok h ms →
  ∃ r1 (h1 : heap) r2 (h2 : heap),
    handle_user_message message cid ms h = Some (r1, h1)
    ∧ handle_user_message message cid ms h1 = Some (r2, h2)
    ∧ same_action h1 r1 h2 r2
    ∧ same_action h2 r1 h2 r2.
Proof.
  intros Hok.
  destruct (response_metadata_twice ms cid h Hok)
    as (l1 & h1 & l2 & h2 & Hmd1 & Hmd2 & Hsome & Heq1 & Heq2).
  destruct (order_or_default_shape message cid ms (is_order_intent message)
              (extract_order_id message)) as (f & Hf & Hsame & _).
  assert (Hsteps :
    ∃ r1 r2,
      order_or_default message cid ms (is_order_intent message)
        (extract_order_id message) h = Some (r1, h1)
      ∧ order_or_default message cid ms (is_order_intent message)
          (extract_order_id message) h1 = Some (r2, h2)
      ∧ same_action h1 r1 h2 r2 ∧ same_action h2 r1 h2 r2).
  { exists (f l1), (f l2). rewrite !Hf, Hmd1, Hmd2. split_and!; try done.
    - by apply Hsame.
    - apply Hsame; [|done]. rewrite Heq2, <-Heq1. done. }
  destruct Hsteps as (r1 & r2 & Hrun1 & Hrun2 & Hs1 & Hs2).
  unfold handle_user_message.
  destruct (is_negative_or_offensive message).
  { eexists _, _, _, _. split_and!; try reflexivity;
      by apply same_action_refl. }
  destruct (match_faq message) as [a|].
  - destruct (str_truthy (Some a) && negb (is_order_intent message)).
    + eexists _, _, _, _. split_and!; try reflexivity;
        by apply same_action_refl.
    + by exists r1, h1, r2, h2.
  - by exists r1, h1, r2, h2.
Qed.

Lemma handle_user_message_repeatable_witness :
  let message := "Can you track my order ORD-1001?" in
  let ms := {| tool_choice := "auto"; metadata := Some 0 |} in
  let h : heap := [ {["channel" := VStr "web"]} ] in
  ∃ r1 (h1 : heap) r2 (h2 : heap),
    handle_user_message message "CUST-789" ms h = Some (r1, h1)
    ∧ handle_user_message message "CUST-789" ms h1 = Some (r2, h2)
    ∧ same_action h1 r1 h2 r2
    ∧ same_action h2 r1 h2 r2.
Proof.
  intros message ms h.
  apply (handle_user_message_repeatable message "CUST-789" ms h).
  intros l [= <-]. by eexists.
Defined.

(** ** The caller's metadata *)

(** Whenever a run of the bot agent is returned, its metadata hold the
    customer id of the call under ["customer_id"], whatever the caller
    had stored under that key. *)
Lemma invoke_metadata_customer_id message cid ms (h h' : heap) run :
  handle_user_message message cid ms h = Some (Invoke run, h') →
  ∃ d : dict, h' !! run_metadata run = Some d
              ∧ d !! "customer_id" = Some (VStr cid).
Proof.
  destruct (order_or_default_shape message cid ms (is_order_intent message)
              (extract_order_id message)) as (f & Hf & _ & Hloc).
  assert (Hsteps :
    order_or_default message cid ms (is_order_intent message)
      (extract_order_id message) h = Some (Invoke run, h') →
    ∃ d : dict, h' !! run_metadata run = Some d
                ∧ d !! "customer_id" = Some (VStr cid)).
  { rewrite Hf. unfold response_metadata_of. rewrite !M_bind_eq.
    match goal with
    | |- context [match ?m h with Some _ => _ | None => _ end] =>
        destruct (m h) as [[l h0]|]; [|done]
    end.
    rewrite M_bind_eq. unfold setitem. destruct (h0 !! l) as [d|] eqn:Hl; [|done].
    cbn. intros [= Hr <-]. rewrite (Hloc _ _ Hr).
    exists (<["customer_id" := VStr cid]> d).
    split; [|apply lookup_insert_eq].
    apply list_lookup_insert_eq. by eapply lookup_lt_Some. }
  unfold handle_user_message.
  destruct (is_negative_or_offensive message); [done|].
  destruct (match_faq message) as [a|]; [|done].
  destruct (str_truthy (Some a) && negb (is_order_intent message)); done.
Qed.

(** A dictionary of the caller that is not empty is written to by every
    call that reaches step 4, whatever the call returns. *)
Lemma caller_metadata_written message cid ms (h : heap) l (d : dict) :
  metadata ms = Some l → h !! l = Some d → d ≠ ∅ →
  is_negative_or_offensive message = false →
  match_faq message = None ∨ is_order_intent message = true →
  ∃ r, handle_user_message message cid ms h
       = Some (r, <[l := <["customer_id" := VStr cid]> d]> h).
Proof.
  intros Hm Hl Hd Hneg Hstep.
  destruct (order_or_default_shape message cid ms (is_order_intent message)
              (extract_order_id message)) as (f & Hf & _).
  assert (Hsteps :
    order_or_default message cid ms (is_order_intent message)
      (extract_order_id message) h
    = Some (f l, <[l := <["customer_id" := VStr cid]> d]> h))
    by (rewrite Hf; by erewrite response_metadata_shared).
  unfold handle_user_message. rewrite Hneg.
  exists (f l).
  destruct Hstep as [Hnone | Hoi].
  - by rewrite Hnone.
  - destruct (match_faq message); [|done].
    by rewrite Hoi, andb_false_r in *.
Qed.

(** C3, the code at the failing input: the caller passes the metadata
    [{"channel": "web"}]; after the call the caller's own dictionary has
    the additional key ["customer_id"]. *)
Theorem caller_metadata_mutated :
  let caller : dict := {["channel" := VStr "web"]} in
  let ms := {| tool_choice := "auto"; metadata := Some 0 |} in
  ∃ h' : heap,
    handle_user_message "Hello there" "CUST-789" ms [caller]
    = Some (Reply DEFAULT_HELP, h')
    ∧ h' !! 0 = Some (<["customer_id" := VStr "CUST-789"]> caller)
    ∧ h' !! 0 ≠ Some caller.
Proof.
  intros caller ms.
  assert (Hneg : is_negative_or_offensive "Hello there" = false)
    by (vm_compute; reflexivity).
  assert (Hfaq : match_faq "Hello there" = None) by (vm_compute; reflexivity).
  assert (Hoi : is_order_intent "Hello there" = false)
    by (vm_compute; reflexivity).
  assert (Hmd : response_metadata_of ms "CUST-789" [caller]
                = Some (0, [ <["customer_id" := VStr "CUST-789"]> caller ])).
  { by rewrite (response_metadata_shared ms _ [caller] 0 caller). }
  exists [ <["customer_id" := VStr "CUST-789"]> caller ]. split_and!.
  - unfold handle_user_message. rewrite Hneg, Hfaq, Hoi.
    route_with Hmd. reflexivity.
  - reflexivity.
  - intros H. apply (inj Some) in H.
    assert (Hk : caller !! "customer_id" = Some (VStr "CUST-789"))
      by (rewrite <-H; apply lookup_insert_eq).
    unfold caller in Hk. by rewrite lookup_singleton_ne in Hk.
Qed.

(** ** The matcher *)

Section Matcher.
Context {R : Type}.
Implicit Types (r : regex) (s : list ascii) (k : nat → option span → option R).

(** The matcher fails exactly when the continuation refuses the end of
    every path. *)
Lemma rmatch_None r s i g k :
  rmatch r s i g k = None ↔ ∀ j g', path r s i g j g' → k j g' = None.
Proof.
  revert i g k. induction r as [|c|p|r1 IH1 r2 IH2|r1 IH1 r2 IH2| |r1 IH1];
    intros i g k; cbn.
  - split; [by intros H j g' [-> ->]|]. intros H. by apply H.
  - destruct (s !! i) as [c'|] eqn:Hc.
    + destruct (decide (c' = c)) as [->|Hne].
      * split; [by intros H j g' (_ & -> & ->)|]. intros H. by apply H.
      * split; [|done]. intros _ j g' (Hc' & _). congruence.
    + split; [|done]. by intros _ j g' (Hc' & _).
  - destruct (s !! i) as [c'|] eqn:Hc.
    + destruct (p c') eqn:Hp.
      * split; [by intros H j g' (_ & -> & ->)|]. intros H. apply H. eauto.
      * split; [|done]. intros _ j g' ((c & Hc' & Hpc) & _). congruence.
    + split; [|done]. by intros _ j g' ((c & Hc' & _) & _).
  - rewrite IH1. split.
    + intros H j g' (m & gm & H1 & H2).
      specialize (H m gm H1). rewrite IH2 in H. by apply H.
    + intros H m gm H1. apply IH2. intros j g' H2. apply H. eauto.
  - destruct (rmatch r1 s i g k) as [x|] eqn:H1.
    + split; [done|]. intros H.
      assert (Hnone : rmatch r1 s i g k = None) by (apply IH1; auto).
      congruence.
    + rewrite IH1 in H1. rewrite IH2. split.
      * intros H j g' [Hp|Hp]; auto.
      * intros H j g' Hp. auto.
  - destruct (at_boundary s i).
    + split; [by intros H j g' (_ & -> & ->)|]. intros H. by apply H.
    + split; [|done]. by intros _ j g' (? & _).
  - rewrite IH1. split.
    + intros H j g' ((g0 & Hp) & ->). eauto.
    + intros H j g0 Hp. apply H. eauto.
Qed.

(** What the matcher returns, the continuation returned at the end of
    some path. *)
Lemma rmatch_Some r s i g k x :
  rmatch r s i g k = Some x → ∃ j g', path r s i g j g' ∧ k j g' = Some x.
Proof.
  revert i g k. induction r as [|c|p|r1 IH1 r2 IH2|r1 IH1 r2 IH2| |r1 IH1];
    intros i g k; cbn.
  - eauto.
  - destruct (s !! i) as [c'|] eqn:Hc; [|done].
    destruct (decide (c' = c)) as [->|]; [|done]. eauto 10.
  - destruct (s !! i) as [c'|] eqn:Hc; [|done].
    destruct (p c') eqn:Hp; [|done]. eauto 10.
  - intros (m & gm & H1 & H2)%IH1. apply IH2 in H2 as (j & g' & H2 & Hk).
    eauto 10.
  - destruct (rmatch r1 s i g k) as [y|] eqn:H1.
    + intros [= ->]. apply IH1 in H1 as (j & g' & ? & ?). eauto.
    + intros (j & g' & ? & ?)%IH2. eauto.
  - destruct (at_boundary s i); [|done]. eauto 10.
  - intros (j & g0 & ? & ?)%IH1. eauto 10.
Qed.

End Matcher.

(** A match at [i] is a path from [i]. *)
Lemma match_at_None r s i :
  match_at r s i = None ↔ ∀ j g, ¬ path r s i None j g.
Proof.
  unfold match_at. rewrite rmatch_None. split.
  - intros H j g Hp. by specialize (H j g Hp).
  - intros H j g Hp. by destruct (H j g).
Qed.

Lemma match_at_Some r s i m :
  match_at r s i = Some m →
  ∃ j, whole m = (i, j) ∧ path r s i None j (group1 m).
Proof.
  unfold match_at. intros (j & g & Hp & [= <-])%rmatch_Some. eauto.
Qed.

(** When the paths from [i] all end alike, that is the match at [i]. *)
Lemma match_at_unique r s i j g :
  path r s i None j g →
  (∀ j' g', path r s i None j' g' → j' = j ∧ g' = g) →
  match_at r s i = Some (ReMatch (i, j) g).
Proof.
  intros Hp Huniq. destruct (match_at r s i) as [[[a b] g']|] eqn:Hm.
  - apply match_at_Some in Hm as (j' & [= -> ->] & Hp'). cbn in Hp'.
    by destruct (Huniq _ _ Hp') as [-> ->].
  - rewrite match_at_None in Hm. by destruct (Hm j g).
Qed.

(** The search returns the match at the leftmost position that has one. *)
Lemma search_from_None r s i n :
  search_from r s i n = None ↔ ∀ p, i ≤ p ≤ i + n → match_at r s p = None.
Proof.
  revert i. induction n as [|n IH]; intros i; cbn.
  - destruct (match_at r s i) eqn:Hm.
    + split; [done|]. intros H. rewrite H in Hm by lia. done.
    + split; [|done]. intros _ p Hp. by replace p with i by lia.
  - destruct (match_at r s i) eqn:Hm.
    + split; [done|]. intros H. rewrite H in Hm by lia. done.
    + rewrite IH. split.
      * intros H p Hp. destruct (decide (p = i)) as [->|]; [done|].
        apply H. lia.
      * intros H p Hp. apply H. lia.
Qed.

Lemma search_from_first r s i n q m :
  i ≤ q ≤ i + n →
  (∀ p, i ≤ p < q → match_at r s p = None) →
  match_at r s q = Some m →
  search_from r s i n = Some m.
Proof.
  revert i. induction n as [|n IH]; intros i Hq Hnone Hm; cbn.
  - replace i with q by lia. by rewrite Hm.
  - destruct (decide (q = i)) as [->|Hne]; [by rewrite Hm|].
    rewrite Hnone by lia. apply IH; [lia| |done].
    intros p Hp. apply Hnone. lia.
Qed.

Lemma search_from_Some r s i n m :
  search_from r s i n = Some m →
  ∃ q, i ≤ q ≤ i + n ∧ match_at r s q = Some m.
Proof.
  revert i. induction n as [|n IH]; intros i; cbn.
  - destruct (match_at r s i) eqn:Hm; [|done]. intros [= <-].
    exists i. split; [lia|done].
  - destruct (match_at r s i) eqn:Hm.
    + intros [= <-]. exists i. split; [lia|done].
    + intros (q & Hq & Hq')%IH. exists q. split; [lia|done].
Qed.

(** A pattern that starts with [\b] matches nowhere in a text without
    word characters. *)
Lemma search_needs_boundary r s :
  (∀ i, at_boundary s i = false) → re_search (Seq Bnd r) s = None.
Proof.
  intros H. apply search_from_None. intros p _.
  unfold match_at. cbn. by rewrite H.
Qed.

(** ** Characters and strings *)

Ltac by_cases_on_char c :=
  destruct c as [[] [] [] [] [] [] [] []]; vm_compute; try done; auto.

Lemma space_is_caseless c :
  Char.is_space c = true → Char.to_lower c = c ∧ Char.to_upper c = c.
Proof. by_cases_on_char c. Qed.

Lemma space_is_no_word c : Char.is_space c = true → Char.is_word c = false.
Proof. by_cases_on_char c. Qed.

Lemma chars_app s1 s2 :
  list_ascii_of_string (s1 +:+ s2)
  = list_ascii_of_string s1 ++ list_ascii_of_string s2.
Proof.
  induction s1 as [|c s1 IH]; [done|].
  change (String c s1 +:+ s2) with (String c (s1 +:+ s2)).
  cbn. by rewrite IH.
Qed.

Lemma all_chars_Forall p s :
  all_chars p s = true ↔ Forall (λ c, p c = true) (list_ascii_of_string s).
Proof.
  induction s as [|c s IH]; cbn.
  - split; [constructor|done].
  - rewrite andb_true_iff, Forall_cons, IH. done.
Qed.

Lemma map_string_id f p s :
  (∀ c, p c = true → f c = c) → all_chars p s = true → map_string f s = s.
Proof.
  intros Hf. induction s as [|c s IH]; cbn; [done|].
  intros [Hc Hs]%andb_true_iff. by rewrite Hf, IH.
Qed.

Lemma blank_lower s : all_chars Char.is_space s = true → lower s = s.
Proof. apply map_string_id. intros c Hc. by apply space_is_caseless. Qed.

Lemma blank_upper s : all_chars Char.is_space s = true → upper s = s.
Proof. apply map_string_id. intros c Hc. by apply space_is_caseless. Qed.

(** A text of white space has no word boundary. *)
Lemma blank_no_boundary s i :
  all_chars Char.is_space s = true →
  at_boundary (list_ascii_of_string s) i = false.
Proof.
  rewrite all_chars_Forall, Forall_lookup. intros Hs.
  assert (Hw : ∀ j, is_word_at (list_ascii_of_string s) j = false).
  { intros j. unfold is_word_at.
    destruct (list_ascii_of_string s !! j) as [c|] eqn:Hc; [|done].
    apply space_is_no_word. by eapply Hs. }
  unfold at_boundary. rewrite Hw. by destruct i; rewrite ?Hw.
Qed.

(** A needle that starts with a character that is not white space does
    not occur in a text of white space. *)
Lemma blank_contains c needle s :
  Char.is_space c = false →
  all_chars Char.is_space s = true →
  contains (String c needle) s = false.
Proof.
  intros Hc. induction s as [|a s IH]; cbn; [done|].
  intros [Ha Hs]%andb_true_iff. rewrite IH by done.
  destruct (ascii_dec c a) as [->|]; [congruence|done].
Qed.

Lemma blank_split cur s :
  all_chars Char.is_space s = true → split_go cur s = flush cur.
Proof.
  revert cur. induction s as [|a s IH]; intros cur; cbn; [done|].
  intros [-> Hs]%andb_true_iff. rewrite IH by done. cbn. apply app_nil_r.
Qed.

(** C8: for the empty message, and for any message of white space only,
    the word count is 0, nothing negative or offensive is found, no FAQ
    topic matches, there is no order intent and no order identifier; the
    call falls through to the last branch and returns the generic help
    text. *)
Theorem blank_message_gets_default_help message cid ms (h : heap) :
  all_chars Char.is_space message = true →
  metadata_ok h ms →
  length (split message) = 0
  ∧ is_negative_or_offensive message = false
  ∧ match_faq message = None
  ∧ is_order_intent message = false
  ∧ extract_order_id message = None
  ∧ ∃ h' : heap,
      handle_user_message message cid ms h = Some (Reply DEFAULT_HELP, h').
Proof.
  intros Hblank Hok.
  assert (Hsplit : split message = []) by by apply blank_split.
  assert (Hneg : is_negative_or_offensive message = false).
  { unfold is_negative_or_offensive. rewrite blank_lower by done.
    cbn [existsb app OFFENSIVE_PATTERNS NEGATIVE_SENTIMENT_PATTERNS].
    unfold word_of. cbn [Cat].
    rewrite !search_needs_boundary by (intros i; by apply blank_no_boundary).
    done. }
  assert (Hfaq : match_faq message = None).
  { unfold match_faq. rewrite blank_lower by done.
    apply match_faq_in_none. unfold FAQS.
    repeat (constructor; [by apply blank_contains|]). constructor. }
  assert (Hoi : is_order_intent message = false).
  { unfold is_order_intent. rewrite blank_lower by done.
    by rewrite !blank_contains. }
  assert (Hid : extract_order_id message = None).
  { unfold extract_order_id. rewrite blank_upper by done.
    unfold ORDER_ID_PATTERN. cbn [Cat].
    by rewrite search_needs_boundary by (intros i; by apply blank_no_boundary). }
  split_and!; try done; [by rewrite Hsplit|].
  destruct (response_metadata_of_ok ms cid h Hok) as (l & h' & d & Hmd & _).
  exists h'. unfold handle_user_message. rewrite Hneg, Hfaq, Hoi.
  route_with Hmd. rewrite Hsplit, blank_lower by done.
  by rewrite !blank_contains.
Qed.

Lemma blank_message_gets_default_help_witness :
  (∃ h' : heap,
      handle_user_message "" "CUST-002" default_settings []
      = Some (Reply DEFAULT_HELP, h'))
  ∧ (∃ h' : heap,
      handle_user_message "  	 " "CUST-002" default_settings []
      = Some (Reply DEFAULT_HELP, h')).
Proof.
  split.
  - destruct (blank_message_gets_default_help "" "CUST-002" default_settings [])
      as (_ & _ & _ & _ & _ & h' & Hrun); [reflexivity|by intros l [=]|].
    by exists h'.
  - destruct (blank_message_gets_default_help "  	 " "CUST-002" default_settings [])
      as (_ & _ & _ & _ & _ & h' & Hrun); [reflexivity|by intros l [=]|].
    by exists h'.
Defined.

(** ** Order identifiers *)

Lemma run_of_0 p s i : run_of p s i 0.
Proof. intros q Hq. lia. Qed.

Lemma run_of_S p s i n :
  run_of p s i (S n) ↔ (∃ c, s !! i = Some c ∧ p c = true) ∧ run_of p s (S i) n.
Proof.
  unfold run_of. split.
  - intros H. split; [apply H; lia|]. intros q Hq. apply H. lia.
  - intros [Hi H] q Hq. destruct (decide (q = i)) as [->|]; [done|].
    apply H. lia.
Qed.

Lemma path_rep_exact p n s i g j g' :
  path (rep_exact n (Cls p)) s i g j g'
  ↔ j = i + n ∧ g' = g ∧ run_of p s i n.
Proof.
  revert i. induction n as [|n IH]; intros i; cbn.
  - split.
    + intros [-> ->]. split_and!; [lia|done|apply run_of_0].
    + intros (-> & -> & _). split; [lia|done].
  - rewrite run_of_S. split.
    + intros (m & gm & (Hc & -> & ->) & Hp). apply IH in Hp as (-> & -> & Hr).
      split_and!; [lia|done..].
    + intros (-> & -> & Hc & Hr). exists (S i), g. split; [done|].
      apply IH. split_and!; [lia|done..].
Qed.

Lemma path_rep_upto p n s i g j g' :
  path (rep_upto n (Cls p)) s i g j g'
  ↔ ∃ m, m ≤ n ∧ j = i + m ∧ g' = g ∧ run_of p s i m.
Proof.
  revert i. induction n as [|n IH]; intros i; cbn.
  - split.
    + intros [-> ->]. exists 0. split_and!; [lia|lia|done|apply run_of_0].
    + intros (m & Hm & -> & -> & _). split; [lia|done].
  - split.
    + intros [(m & gm & (Hc & -> & ->) & Hp)|[-> ->]].
      * apply IH in Hp as (k & Hk & -> & -> & Hr). exists (S k).
        rewrite run_of_S. split_and!; [lia|lia|done..].
      * exists 0. split_and!; [lia|lia|done|apply run_of_0].
    + intros ([|m] & Hm & -> & -> & Hr).
      * right. split; [lia|done].
      * left. apply run_of_S in Hr as [Hc Hr]. exists (S i), g.
        split; [done|]. apply IH. exists m. split_and!; [lia|lia|done..].
Qed.

Lemma path_Rep p lo hi s i g j g' :
  lo ≤ hi →
  path (Rep lo hi (Cls p)) s i g j g'
  ↔ ∃ n, lo ≤ n ≤ hi ∧ j = i + n ∧ g' = g ∧ run_of p s i n.
Proof.
  intros Hle. unfold Rep. cbn [path]. split.
  - intros (m & gm & (-> & -> & H1)%path_rep_exact & H2).
    apply path_rep_upto in H2 as (k & Hk & -> & -> & H2).
    exists (lo + k). split_and!; [lia|lia|lia|done|].
    intros q Hq. destruct (decide (q < i + lo)); [apply H1|apply H2]; lia.
  - intros (n & Hn & -> & -> & Hr). exists (i + lo), g. split.
    + apply path_rep_exact. split_and!; [done..|].
      intros q Hq. apply Hr. lia.
    + apply path_rep_upto. exists (n - lo). split_and!; [lia|lia|done|].
      intros q Hq. apply Hr. lia.
Qed.

Lemma order_id_path s i j g :
  path ORDER_ID_PATTERN s i None j g ↔ order_shape s i j g.
Proof.
  unfold ORDER_ID_PATTERN, order_shape. cbn [Cat Lit Opt path].
  replace (i + 1) with (S i) by lia. replace (i + 2) with (S (S i)) by lia.
  split.
  - intros (? & ? & (Hb & -> & ->) & ? & ? & Hlit & ? & ? & Hsep & ? & ? & Hgrp & Hend).
    destruct Hlit as (? & ? & (HO & -> & ->) & ? & ? & (HR & -> & ->)
                      & ? & ? & (HD & -> & ->) & -> & ->).
    destruct Hgrp as [[g0 Hrep] ->].
    apply path_Rep in Hrep as (n & Hn & -> & -> & Hrun); [|lia].
    destruct Hend as (Hb' & -> & ->).
    split_and!; try done.
    destruct Hsep as [((c & Hc & Hsep) & -> & ->)|[-> ->]].
    + exists (i + 4), n. replace (i + 4) with (S (S (S (S i)))) by lia.
      replace (i + 3) with (S (S (S i))) by lia.
      split_and!; first [done | lia | right; eauto].
    + exists (i + 3), n. replace (i + 3) with (S (S (S i))) by lia.
      split_and!; first [done | lia | by left].
  - intros (Hb & HO & HR & HD & a & n & Hsep & Hn & Hrun & -> & -> & Hb').
    exists i, None. split; [done|].
    exists (S (S (S i))), None. split.
    { exists (S i), None. split; [done|]. exists (S (S i)), None. split; [done|].
      exists (S (S (S i))), None. done. }
    exists a, None. split.
    { destruct Hsep as [->|[-> (c & Hc & Hsep)]].
      - right. split; [lia|done].
      - left. replace (i + 3) with (S (S (S i))) in Hc by lia.
        split_and!; [eauto|lia|done]. }
    exists (a + n), (Some (a, a + n)). split; [|done].
    split; [|done]. exists None. apply path_Rep; [lia|]. eauto.
Qed.

Lemma digit_is_word c : Char.is_digit c = true → Char.is_word c = true.
Proof. intros H. unfold Char.is_word. rewrite H. by rewrite orb_true_r. Qed.

Lemma at_boundary_after_word s j c :
  s !! j = Some c → Char.is_word c = true →
  at_boundary s (S j) = negb (is_word_at s (S j)).
Proof.
  intros Hc Hw. unfold at_boundary. unfold is_word_at at 1. by rewrite Hc, Hw.
Qed.

Section Canonical.
Variables P D Q : list ascii.
Hypothesis HD : Forall (λ c, Char.is_digit c = true) D.
Hypothesis HlenD : 3 ≤ length D ≤ 6.
Hypothesis HP : ∀ c, last P = Some c → Char.is_word c = false.
Hypothesis HQ : ∀ c, head Q = Some c → Char.is_word c = false.

Local Abbreviation s := (P ++ ["O"; "R"; "D"; "-"]%char ++ D ++ Q).
Local Abbreviation i := (length P).

Lemma canonical_before q : q < i → s !! q = P !! q.
Proof. intros Hq. by rewrite lookup_app_l. Qed.

Lemma canonical_from q : s !! (i + q) = (["O"; "R"; "D"; "-"]%char ++ D ++ Q) !! q.
Proof. rewrite lookup_app_r by lia. f_equal. lia. Qed.

Lemma canonical_O : s !! i = Some "O"%char.
Proof. pose proof (canonical_from 0) as H. by rewrite Nat.add_0_r in H. Qed.

Lemma canonical_from4 q : s !! (i + 4 + q) = (D ++ Q) !! q.
Proof.
  rewrite (app_assoc P), lookup_app_r by (rewrite length_app; cbn; lia).
  f_equal. rewrite length_app. cbn. lia.
Qed.

Lemma canonical_digit q : q < length D → s !! (i + 4 + q) = D !! q.
Proof. intros Hq. by rewrite canonical_from4, lookup_app_l. Qed.

Lemma canonical_after q : s !! (i + 4 + length D + q) = Q !! q.
Proof.
  rewrite <-Nat.add_assoc, canonical_from4, lookup_app_r by lia.
  f_equal. lia.
Qed.

Lemma canonical_digits : run_of Char.is_digit s (i + 4) (length D).
Proof.
  intros q Hq. replace q with (i + 4 + (q - (i + 4))) by lia.
  rewrite canonical_digit by lia.
  destruct (lookup_lt_is_Some_2 D (q - (i + 4))) as [c Hc]; [lia|].
  exists c. split; [done|]. by eapply (proj1 (Forall_lookup _ _) HD).
Qed.

Lemma canonical_start : at_boundary s i = true.
Proof.
  unfold at_boundary.
  assert (Hi : is_word_at s i = true).
  { unfold is_word_at. by rewrite canonical_O. }
  rewrite Hi. destruct i as [|j] eqn:Hlen; [done|].
  unfold is_word_at. rewrite canonical_before by lia.
  destruct (P !! j) as [c|] eqn:Hc; [|done].
  rewrite (HP c); [done|]. rewrite last_lookup, Hlen. done.
Qed.

Lemma canonical_end : at_boundary s (i + 4 + length D) = true.
Proof.
  destruct (lookup_lt_is_Some_2 D (length D - 1)) as [c Hc]; [lia|].
  replace (i + 4 + length D) with (S (i + 4 + (length D - 1))) by lia.
  rewrite (at_boundary_after_word _ _ c).
  - replace (S (i + 4 + (length D - 1))) with (i + 4 + length D + 0) by lia.
    unfold is_word_at. rewrite canonical_after.
    destruct (Q !! 0) as [c'|] eqn:Hc'; [|done].
    rewrite (HQ c'); [done|]. by rewrite head_lookup.
  - by rewrite canonical_digit by lia.
  - apply digit_is_word. by eapply (proj1 (Forall_lookup _ _) HD).
Qed.

Lemma canonical_shape :
  order_shape s i (i + 4 + length D) (Some (i + 4, i + 4 + length D)).
Proof.
  split_and!.
  - apply canonical_start.
  - apply canonical_O.
  - by rewrite canonical_from.
  - by rewrite canonical_from.
  - exists (i + 4), (length D). split_and!; try done; try lia.
    + right. split; [done|]. exists "-"%char. by rewrite canonical_from.
    + apply canonical_digits.
    + apply canonical_end.
Qed.

(** Every match at the identifier is the identifier. *)
Lemma canonical_unique j g :
  order_shape s i j g →
  j = i + 4 + length D ∧ g = Some (i + 4, i + 4 + length D).
Proof.
  intros (_ & _ & _ & _ & a & n & Hsep & Hn & Hrun & -> & -> & Hend).
  assert (Ha : a = i + 4).
  { destruct Hsep as [->|[-> _]]; [|done].
    destruct (Hrun (i + 3)) as (c & Hc & Hdig); [lia|].
    rewrite canonical_from in Hc. by injection Hc as <-. }
  subst a.
  assert (Hn' : n = length D); [|by subst n].
  destruct (decide (n = length D)) as [|Hne]; [done|exfalso].
  destruct (decide (n < length D)) as [Hlt|Hge].
  - (* the match would end between two digits *)
    destruct (Hrun (i + 4 + (n - 1))) as (c & Hc & Hdig); [lia|].
    replace (i + 4 + n) with (S (i + 4 + (n - 1))) in Hend by lia.
    rewrite (at_boundary_after_word _ _ c) in Hend
      by (done || by apply digit_is_word).
    replace (S (i + 4 + (n - 1))) with (i + 4 + n) in Hend by lia.
    unfold is_word_at in Hend. rewrite canonical_digit in Hend by done.
    destruct (lookup_lt_is_Some_2 D n) as [c' Hc']; [lia|].
    rewrite Hc' in Hend.
    rewrite digit_is_word in Hend; [done|].
    by eapply (proj1 (Forall_lookup _ _) HD).
  - (* the match would take a character after the digits *)
    destruct (Hrun (i + 4 + length D)) as (c & Hc & Hdig); [lia|].
    replace (i + 4 + length D) with (i + 4 + length D + 0) in Hc by lia.
    rewrite canonical_after in Hc.
    pose proof (HQ c) as Hw. rewrite head_lookup in Hw.
    apply digit_is_word in Hdig. rewrite Hw in Hdig; done.
Qed.

Lemma canonical_boundary_before q :
  q < i → at_boundary s q = at_boundary P q.
Proof.
  intros Hq. unfold at_boundary, is_word_at.
  rewrite canonical_before by done.
  destruct q as [|q']; [done|]. by rewrite canonical_before by lia.
Qed.

(** A match that starts before the identifier ends before it: it is a
    match in the text before the identifier. *)
Lemma canonical_no_earlier p j g :
  p < i → order_shape s p j g → order_shape P p j g.
Proof.
  intros Hp (Hb & HO & HR & HD' & a & n & Hsep & Hn & Hrun & -> & -> & Hend).
  assert (Hlt : a + n < i).
  { destruct (decide (a + n < i)) as [|Hge]; [done|exfalso].
    pose proof canonical_O as Hi.
    assert (Hcases : i = p + 1 ∨ i = p + 2 ∨ (i = p + 3 ∧ a = p + 4)
                     ∨ a ≤ i < a + n ∨ i = a + n) by lia.
    destruct Hcases as [Heq|[Heq|[[Heq Ha]|[Hin|Heq]]]].
    - rewrite <-Heq, Hi in HR. done.
    - rewrite <-Heq, Hi in HD'. done.
    - destruct Hsep as [->|[_ (c & Hc & Hsep)]]; [lia|].
      rewrite <-Heq, Hi in Hc. by injection Hc as <-.
    - destruct (Hrun i Hin) as (c & Hc & Hdig).
      rewrite Hi in Hc. by injection Hc as <-.
    - destruct (Hrun (a + (n - 1))) as (c & Hc & Hdig); [lia|].
      replace (a + n) with (S (a + (n - 1))) in Hend by lia.
      rewrite (at_boundary_after_word _ _ c) in Hend
        by (done || by apply digit_is_word).
      replace (S (a + (n - 1))) with i in Hend by lia.
      unfold is_word_at in Hend. rewrite Hi in Hend. done. }
  rewrite canonical_boundary_before in Hb, Hend by lia.
  rewrite canonical_before in HO, HR, HD' by lia.
  split_and!; try done.
  exists a, n. split_and!; try done; try lia.
  - destruct Hsep as [->|[-> (c & Hc & Hsep)]]; [by left|right].
    rewrite canonical_before in Hc by lia. eauto.
  - intros q Hq. rewrite <-canonical_before by lia. by apply Hrun.
Qed.

Lemma canonical_search :
  (∀ p, p ≤ i → match_at ORDER_ID_PATTERN P p = None) →
  re_search ORDER_ID_PATTERN s
  = Some (ReMatch (i, i + 4 + length D) (Some (i + 4, i + 4 + length D))).
Proof.
  intros Hnone. apply (search_from_first _ _ _ _ i).
  - rewrite !length_app. lia.
  - intros p [_ Hp]. apply match_at_None. intros j g Hpath.
    apply order_id_path, canonical_no_earlier, order_id_path in Hpath; [|done].
    specialize (Hnone p). rewrite match_at_None in Hnone.
    apply (Hnone ltac:(lia) j g Hpath).
  - apply match_at_unique.
    + apply order_id_path, canonical_shape.
    + intros j g Hpath. by apply canonical_unique, order_id_path.
Qed.

Lemma canonical_slice :
  slice s (i + 4, i + 4 + length D) = D.
Proof.
  unfold slice. cbn [fst snd].
  replace (i + 4 + length D - (i + 4)) with (length D) by lia.
  rewrite (app_assoc P), (app_assoc _ D).
  rewrite drop_app_le by (rewrite !length_app; cbn; lia).
  rewrite take_app_le by (rewrite length_drop, !length_app; cbn; lia).
  rewrite drop_app_length' by (rewrite length_app; cbn; lia).
  by rewrite take_ge.
Qed.

End Canonical.

Lemma chars_fmap_string f s :
  list_ascii_of_string (map_string f s) = f <$> list_ascii_of_string s.
Proof. induction s as [|c s IH]; cbn; [done|by rewrite IH]. Qed.

Lemma map_string_app f s1 s2 :
  map_string f (s1 +:+ s2) = map_string f s1 +:+ map_string f s2.
Proof.
  induction s1 as [|c s1 IH]; [done|].
  change (String c s1 +:+ s2) with (String c (s1 +:+ s2)).
  cbn. rewrite IH. done.
Qed.

Lemma digit_is_caseless c : Char.is_digit c = true → Char.to_upper c = c.
Proof. by_cases_on_char c. Qed.

Lemma is_word_to_upper c : Char.is_word (Char.to_upper c) = Char.is_word c.
Proof. by_cases_on_char c. Qed.

Lemma digits_upper s : all_chars Char.is_digit s = true → upper s = s.
Proof. apply map_string_id. apply digit_is_caseless. Qed.

Lemma string_length_chars s : String.length s = length (list_ascii_of_string s).
Proof. induction s as [|c s IH]; cbn; [done|by rewrite IH]. Qed.

Lemma word_at_end_upper s c :
  word_at_end s = false →
  last (list_ascii_of_string (upper s)) = Some c → Char.is_word c = false.
Proof.
  unfold word_at_end, upper. rewrite chars_fmap_string, fmap_last.
  destruct (last (list_ascii_of_string s)) as [c'|]; [|done].
  intros Hw [= <-]. by rewrite is_word_to_upper.
Qed.

Lemma word_at_start_upper s c :
  word_at_start s = false →
  head (list_ascii_of_string (upper s)) = Some c → Char.is_word c = false.
Proof.
  destruct s as [|c' s]; [done|]. cbn.
  intros Hw [= <-]. by rewrite is_word_to_upper.
Qed.

Lemma extract_order_id_None text :
  extract_order_id text = None →
  ∀ p, p ≤ length (list_ascii_of_string (upper text)) →
       match_at ORDER_ID_PATTERN (list_ascii_of_string (upper text)) p = None.
Proof.
  unfold extract_order_id, re_search.
  destruct (search_from _ _ _ _) eqn:Hs; [done|]. intros _ p Hp.
  rewrite search_from_None in Hs. apply Hs. lia.
Qed.

(** The identifier is found when it stands as a word of its own and no
    identifier comes before it. *)
Lemma extract_order_id_embedded pre digits post :
  all_chars Char.is_digit digits = true →
  3 ≤ String.length digits ≤ 6 →
  word_at_end pre = false →
  word_at_start post = false →
  extract_order_id pre = None →
  extract_order_id (pre +:+ "ORD-" +:+ digits +:+ post)
  = Some ("ORD-" +:+ digits).
Proof.
  intros Hdig Hlen Hpre Hpost Hnone.
  unfold extract_order_id, upper.
  rewrite !map_string_app, !chars_app. fold (upper pre) (upper post) (upper digits).
  rewrite (digits_upper digits) by done.
  change (list_ascii_of_string (map_string Char.to_upper "ORD-"))
    with ["O"; "R"; "D"; "-"]%char.
  rewrite string_length_chars in Hlen.
  rewrite canonical_search; cbn [group1].
  - rewrite canonical_slice by done.
    by rewrite string_of_list_ascii_of_string.
  - by apply all_chars_Forall.
  - done.
  - intros c. by apply word_at_end_upper.
  - intros c. by apply word_at_start_upper.
  - by apply extract_order_id_None.
Qed.

Lemma slice_run p s a n :
  run_of p s a n →
  length (slice s (a, a + n)) = n ∧ Forall (λ c, p c = true) (slice s (a, a + n)).
Proof.
  intros Hrun. unfold slice. cbn [fst snd].
  replace (a + n - a) with n by lia. split.
  - rewrite length_take, length_drop.
    destruct n as [|n]; [lia|].
    destruct (Hrun (a + n)) as (c & Hc%lookup_lt_Some & _); lia.
  - apply Forall_lookup. intros q c [Hc Hq]%lookup_take_Some.
    rewrite lookup_drop in Hc.
    destruct (Hrun (a + q)) as (c' & Hc' & Hp); [lia|]. congruence.
Qed.

(** What is returned is [ORD-] and the 3 to 6 digits of a match. *)
Lemma extract_order_id_canonical text oid :
  extract_order_id text = Some oid →
  ∃ digits,
    oid = "ORD-" +:+ digits
    ∧ all_chars Char.is_digit digits = true
    ∧ 3 ≤ String.length digits ≤ 6.
Proof.
  unfold extract_order_id, re_search.
  destruct (search_from _ _ _ _) as [m|] eqn:Hs; [|done].
  apply search_from_Some in Hs as (q & _ & Hm).
  apply match_at_Some in Hm as (j & _ & Hpath).
  apply order_id_path in Hpath
    as (_ & _ & _ & _ & a & n & _ & Hn & Hrun & -> & -> & _).
  apply slice_run in Hrun as [Hlen Hdig].
  intros [= <-]. eexists. split; [reflexivity|].
  split.
  - apply all_chars_Forall. by rewrite list_ascii_of_string_of_list_ascii.
  - by rewrite string_length_chars, list_ascii_of_string_of_list_ascii, Hlen.
Qed.

(** C7 as stated fails: in [xORD-123] the identifier does not start a
    word, and nothing is extracted. *)
Lemma order_id_missed : ¬ order_id_found_anywhere.
Proof.
  intros H. specialize (H "x" "123" "" eq_refl eq_refl eq_refl).
  assert (Hrun : extract_order_id ("x" +:+ "ORD-" +:+ "123" +:+ "") = None)
    by (vm_compute; reflexivity).
  rewrite Hrun in H. discriminate H. cbn. lia.
Qed.

(** C7, amended: in ASCII text, a canonical identifier, [ORD-] and 3 to
    6 digits, is extracted as it is when it stands as a word of its own
    (no word character right before it or right after it) and no
    identifier is found in the text before it; what follows it, further
    identifiers included, plays no part.  Whatever is extracted from an
    ASCII text has the canonical form, [ORD-] and 3 to 6 digits. *)
Theorem extract_order_id_roundtrip :
  (∀ pre digits post,
      is_ascii_text pre = true → is_ascii_text post = true →
      all_chars Char.is_digit digits = true →
      3 ≤ String.length digits ≤ 6 →
      word_at_end pre = false →
      word_at_start post = false →
      extract_order_id pre = None →
      extract_order_id (pre +:+ "ORD-" +:+ digits +:+ post)
      = Some ("ORD-" +:+ digits))
  ∧ (∀ text oid,
      is_ascii_text text = true →
      extract_order_id text = Some oid →
      ∃ digits,
        oid = "ORD-" +:+ digits
        ∧ all_chars Char.is_digit digits = true
        ∧ 3 ≤ String.length digits ≤ 6).
Proof.
  split.
  - intros pre digits post _ _. apply extract_order_id_embedded.
  - intros text oid _. apply extract_order_id_canonical.
Qed.

Lemma extract_order_id_roundtrip_witness :
  extract_order_id "Can you track my order ORD-1001? Not ORD-1002." = Some "ORD-1001"
  ∧ ∃ digits, "ORD-1001" = "ORD-" +:+ digits
              ∧ all_chars Char.is_digit digits = true.
Proof.
  destruct extract_order_id_roundtrip as [Hfound Hform].
  assert (Hrun : extract_order_id "Can you track my order ORD-1001? Not ORD-1002."
                 = Some "ORD-1001").
  { apply (Hfound "Can you track my order " "1001" "? Not ORD-1002.").
    - reflexivity.
    - reflexivity.
    - reflexivity.
    - cbn. lia.
    - reflexivity.
    - reflexivity.
    - vm_compute; reflexivity. }
  split; [exact Hrun|].
  destruct (Hform "Can you track my order ORD-1001? Not ORD-1002." "ORD-1001"
              eq_refl Hrun) as (digits & Hoid & Hdig & _).
  exists digits. split; assumption.
Defined.

(** * Further properties *)

(** ** The remaining branches of the routing *)

Lemma handle_no_signal message cid ms (h : heap) :
  is_negative_or_offensive message = false →
  match_faq message = None →
  handle_user_message message cid ms h
  = order_or_default message cid ms (is_order_intent message)
      (extract_order_id message) h.
Proof.
  intros Hneg Hfaq. unfold handle_user_message. by rewrite Hneg, Hfaq.
Qed.

(** X1: a message without negative wording, FAQ key and order trigger
    word is handed to the human agent, as a complex request, exactly
    when it has more than 40 words or contains ["complicated"] or
    ["legal"], case ignored; otherwise it gets the generic help text. *)
Theorem no_signal_routed_by_complexity message cid ms (h : heap) :
  metadata_ok h ms →
  is_negative_or_offensive message = false →
  match_faq message = None →
  is_order_intent message = false →
  ∃ h' : heap,
    handle_user_message message cid ms h
    = Some (if is_complex message
            then handoff COMPLEX_REASON message cid
            else Reply DEFAULT_HELP, h').
Proof.
  intros Hok Hneg Hfaq Hoi.
  destruct (response_metadata_of_ok ms cid h Hok) as (l & h' & d & Hmd & _).
  exists h'. rewrite handle_no_signal, Hoi by done.
  route_with Hmd. fold (is_complex message).
  by destruct (is_complex message).
Qed.

Lemma no_signal_routed_by_complexity_witness :
  (∃ h' : heap,
      handle_user_message "This is a Complicated matter" "CUST-555"
        default_settings []
      = Some (handoff COMPLEX_REASON "This is a Complicated matter" "CUST-555", h'))
  ∧ (∃ h' : heap,
      handle_user_message "Good morning" "CUST-555" default_settings []
      = Some (Reply DEFAULT_HELP, h')).
Proof.
  split.
  - destruct (no_signal_routed_by_complexity "This is a Complicated matter"
                "CUST-555" default_settings [])
      as (h' & Hrun);
      [by intros l [=] | vm_compute; reflexivity..|].
    exists h'. exact Hrun.
  - destruct (no_signal_routed_by_complexity "Good morning"
                "CUST-555" default_settings [])
      as (h' & Hrun);
      [by intros l [=] | vm_compute; reflexivity..|].
    exists h'. exact Hrun.
Defined.

(** X2: with order intent, no negative wording and an order identifier
    in the message, the bot agent is run with the order tool: under
    [tool_choice = "required"] with the prompt to fetch the status and
    the tool choice ["required"], under any other value with the prompt
    to track the order and the tool choice ["auto"]; in both cases with
    the context of the message and with metadata that hold the customer
    id. *)
Theorem order_with_id_runs_tool message cid ms (h : heap) oid :
  metadata_ok h ms →
  is_negative_or_offensive message = false →
  is_order_intent message = true →
  extract_order_id message = Some oid →
  ∃ l (h' : heap) (d : dict),
    handle_user_message message cid ms h
    = Some (Invoke {| run_agent := bot_agent;
                      prompt :=
                        if decide (tool_choice ms = "required")
                        then "Fetch the status for " +:+ oid +:+ "."
                        else "User asks to track order " +:+ oid
                             +:+ ". Use the tool if available.";
                      run_context := make_context message cid;
                      run_tool_choice :=
                        if decide (tool_choice ms = "required")
                        then "required" else "auto";
                      run_metadata := l |}, h')
    ∧ h' !! l = Some d
    ∧ d !! "customer_id" = Some (VStr cid).
Proof.
  intros Hok Hneg Hoi Hid.
  destruct (response_metadata_of_ok ms cid h Hok) as (l & h' & d & Hmd & Hl & Hd).
  exists l, h', d. split; [|done].
  rewrite handle_not_answered by done. rewrite Hid.
  route_with Hmd. rewrite (extract_order_id_truthy _ _ Hid).
  destruct (decide (tool_choice ms = "required")); [|done].
  rewrite M_bind_eq. unfold lift. by rewrite order_tool_enabled_context, Hoi.
Qed.

Lemma order_with_id_runs_tool_witness :
  ∃ l (h' : heap) (d : dict),
    handle_user_message "Track ORD-9999 for me" "CUST-002"
      {| tool_choice := "auto"; metadata := Some 0 |} [ {["channel" := VStr "web"]} ]
    = Some (Invoke {| run_agent := bot_agent;
                      prompt := "User asks to track order ORD-9999. Use the tool if available.";
                      run_context := make_context "Track ORD-9999 for me" "CUST-002";
                      run_tool_choice := "auto";
                      run_metadata := l |}, h')
    ∧ h' !! l = Some d
    ∧ d !! "customer_id" = Some (VStr "CUST-002").
Proof.
  apply (order_with_id_runs_tool "Track ORD-9999 for me" "CUST-002"
           {| tool_choice := "auto"; metadata := Some 0 |}
           [ {["channel" := VStr "web"]} ] "ORD-9999").
  - intros l [= <-]. by eexists.
  - vm_compute; reflexivity.
  - vm_compute; reflexivity.
  - vm_compute; reflexivity.
Defined.

(** What the loop over the FAQ table returns is a stored answer whose
    key is in the text. *)
Lemma match_faq_in_Some faqs t v :
  match_faq_in faqs t = Some v →
  ∃ k, (k, v) ∈ faqs ∧ contains k t = true.
Proof.
  induction faqs as [|[k' v'] faqs IH]; cbn; [done|].
  destruct (contains k' t) eqn:Hk.
  - intros [= <-]. exists k'. split; [left|done].
  - intros (k & Hin & Hc)%IH. exists k. split; [by right|done].
Qed.

(** X3: the order branch comes before the FAQ answer.  A message with
    an order trigger word and no negative wording gets a run of the bot
    agent, the handoff for an unusable tool or the request for the order
    ID, and never the stored answer of a FAQ topic, also when it contains
    the topic's key. *)
Theorem order_intent_outranks_faq message cid ms (h : heap) :
  metadata_ok h ms →
  is_negative_or_offensive message = false →
  is_order_intent message = true →
  ∃ r (h' : heap),
    handle_user_message message cid ms h = Some (r, h')
    ∧ ((∃ run, r = Invoke run)
       ∨ r = handoff TOOL_UNUSABLE_REASON message cid
       ∨ r = Reply ASK_FOR_ID)
    ∧ (∀ k v, (k, v) ∈ FAQS → r ≠ Reply v).
Proof.
  intros Hok Hneg Hoi.
  destruct (response_metadata_of_ok ms cid h Hok) as (l & h' & d & Hmd & _).
  assert (Hask : ∀ k v, (k, v) ∈ FAQS → Reply ASK_FOR_ID ≠ Reply v).
  { intros k v. unfold FAQS. rewrite !elem_of_cons, elem_of_nil.
    intros [[= -> ->]|[[= -> ->]|[[= -> ->]|[]]]]; discriminate. }
  rewrite handle_not_answered by done.
  route_with Hmd.
  destruct (decide (tool_choice ms = "required")).
  - rewrite M_bind_eq. unfold lift. rewrite order_tool_enabled_context, Hoi.
    cbn beta iota.
    destruct (str_truthy (extract_order_id message)); cbn;
      eexists _, _; (split; [reflexivity|]); split; eauto; done.
  - destruct (str_truthy (extract_order_id message)); cbn;
      eexists _, _; (split; [reflexivity|]); split; eauto; done.
Qed.

Lemma order_intent_outranks_faq_witness :
  let message := "What is the status of my order under your return policy?" in
  match_faq message
  = Some "You can return unopened items within 30 days for a full refund."
  ∧ ∃ h' : heap,
      handle_user_message message "CUST-002" default_settings []
      = Some (Reply ASK_FOR_ID, h').
Proof.
  intros message. split; [vm_compute; reflexivity|].
  destruct (order_intent_outranks_faq message "CUST-002" default_settings [])
    as (r & h' & Hrun & _ & _);
    [by intros l [=] | vm_compute; reflexivity..|].
  exists h'. rewrite Hrun. f_equal. f_equal.
  assert (Hrun' : handle_user_message message "CUST-002" default_settings []
                  = Some (Reply ASK_FOR_ID, [ {["customer_id" := VStr "CUST-002"]} ]))
    by (vm_compute; reflexivity).
  rewrite Hrun' in Hrun. by injection Hrun as <- _.
Defined.

(** X4: whatever the message and the heap, a call that returns gives
    one of seven results: the three handoffs (negative wording, tool
    unusable, complex request), each to the human agent and with the
    context of this message; the stored answer of a FAQ topic whose key
    is in the message; a run of the bot agent with the context of this
    message; the request for the order ID; the generic help text. *)
Theorem outcome_is_one_of_seven message cid ms (h : heap) :
  metadata_ok h ms →
  ∃ r (h' : heap),
    handle_user_message message cid ms h = Some (r, h')
    ∧ (r = handoff NEGATIVE_REASON message cid
       ∨ (∃ k v, (k, v) ∈ FAQS ∧ contains k (lower message) = true ∧ r = Reply v)
       ∨ (∃ run, r = Invoke run ∧ run_agent run = bot_agent
                 ∧ run_context run = make_context message cid)
       ∨ r = handoff TOOL_UNUSABLE_REASON message cid
       ∨ r = Reply ASK_FOR_ID
       ∨ r = handoff COMPLEX_REASON message cid
       ∨ r = Reply DEFAULT_HELP).
Proof.
  intros Hok.
  destruct (response_metadata_of_ok ms cid h Hok) as (l & h' & d & Hmd & _).
  assert (Hsteps : ∀ oi oid,
    ∃ r, order_or_default message cid ms oi oid h = Some (r, h')
         ∧ ((∃ run, r = Invoke run ∧ run_agent run = bot_agent
                    ∧ run_context run = make_context message cid)
            ∨ r = handoff TOOL_UNUSABLE_REASON message cid
            ∨ r = Reply ASK_FOR_ID
            ∨ r = handoff COMPLEX_REASON message cid
            ∨ r = Reply DEFAULT_HELP)).
  { intros oi oid. route_with Hmd. destruct oi.
    - destruct (decide (tool_choice ms = "required")).
      + rewrite M_bind_eq. unfold lift. rewrite order_tool_enabled_context.
        cbn beta iota.
        destruct (is_order_intent message && str_truthy oid);
          eexists; (split; [reflexivity|]); eauto 10.
      + destruct (str_truthy oid);
          eexists; (split; [reflexivity|]); eauto 10.
    - fold (is_complex message). destruct (is_complex message);
        eexists; (split; [reflexivity|]); eauto 10. }
  unfold handle_user_message.
  destruct (is_negative_or_offensive message); [by eauto 10|].
  destruct (match_faq message) as [a|] eqn:Hfaq.
  - destruct (str_truthy (Some a) && negb (is_order_intent message)).
    + apply match_faq_in_Some in Hfaq as (k & Hin & Hk).
      eexists _, _. split; [reflexivity|]. right. left. eauto.
    + destruct (Hsteps (is_order_intent message) (extract_order_id message))
        as (r & Hrun & Hr).
      exists r, h'. split; [done|]. tauto.
  - destruct (Hsteps (is_order_intent message) (extract_order_id message))
      as (r & Hrun & Hr).
    exists r, h'. split; [done|]. tauto.
Qed.

Lemma outcome_is_one_of_seven_witness :
  ∃ r (h' : heap),
    handle_user_message "I need legal advice." "CUST-555"
      {| tool_choice := "required"; metadata := Some 0 |} [ ∅ ]
    = Some (r, h').
Proof.
  destruct (outcome_is_one_of_seven "I need legal advice." "CUST-555"
              {| tool_choice := "required"; metadata := Some 0 |} [ ∅ ])
    as (r & h' & Hrun & _).
  - intros l [= <-]. by eexists.
  - by exists r, h'.
Defined.

(** X5: without an order trigger word in the message, [tool_choice]
    plays no part: any two values, ["required"] included, give the same
    result and the same heap. *)
Theorem tool_choice_unused_without_order_intent message cid ms tc (h : heap) :
  is_order_intent message = false →
  handle_user_message message cid (with_tool_choice tc ms) h
  = handle_user_message message cid ms h.
Proof.
  intros Hoi. unfold handle_user_message, order_or_default.
  by rewrite Hoi.
Qed.

Lemma tool_choice_unused_without_order_intent_witness :
  handle_user_message "I need legal advice." "CUST-555"
    {| tool_choice := "required"; metadata := None |} []
  = handle_user_message "I need legal advice." "CUST-555" default_settings [].
Proof.
  apply (tool_choice_unused_without_order_intent "I need legal advice."
           "CUST-555" default_settings "required" []).
  vm_compute; reflexivity.
Defined.

(** ** What a call does to the heap *)

(** The two ways the response metadata come about. *)
Lemma response_metadata_of_cases ms cid (h h' : heap) l :
  response_metadata_of ms cid h = Some (l, h') →
  (∃ d : dict, metadata ms = Some l ∧ h !! l = Some d ∧ d ≠ ∅
               ∧ h' = <[l := <["customer_id" := VStr cid]> d]> h)
  ∨ (l = length h ∧ h' = h ++ [ {["customer_id" := VStr cid]} ]
     ∧ caller_metadata h ms = ∅).
Proof.
  unfold caller_metadata. destruct (metadata ms) as [l0|] eqn:Hm.
  - destruct (h !! l0) as [d|] eqn:Hl.
    + destruct (decide (d = ∅)) as [->|Hd].
      * rewrite (response_metadata_empty ms cid h l0) by done.
        intros [= <- <-]. by right.
      * rewrite (response_metadata_shared ms cid h l0 d) by done.
        intros [= <- <-]. left. by exists d.
    + unfold response_metadata_of. rewrite Hm, !M_bind_eq.
      unfold dict_truthy. by rewrite Hl.
  - rewrite response_metadata_none by done. intros [= <- <-]. by right.
Qed.

(** The heap a call leaves is the one it found, or the one its response
    metadata left. *)
Lemma handle_heap message cid ms (h h' : heap) r :
  handle_user_message message cid ms h = Some (r, h') →
  (h' = h ∧ ∀ run, r ≠ Invoke run)
  ∨ ∃ l, response_metadata_of ms cid h = Some (l, h')
         ∧ ∀ run, r = Invoke run → run_metadata run = l.
Proof.
  destruct (order_or_default_shape message cid ms (is_order_intent message)
              (extract_order_id message)) as (f & Hf & _ & Hloc).
  assert (Hsteps :
    order_or_default message cid ms (is_order_intent message)
      (extract_order_id message) h = Some (r, h') →
    ∃ l, response_metadata_of ms cid h = Some (l, h')
         ∧ ∀ run, r = Invoke run → run_metadata run = l).
  { rewrite Hf.
    destruct (response_metadata_of ms cid h) as [[l h0]|]; [|done].
    intros [= <- <-]. exists l. split; [done|]. intros run. apply Hloc. }
  unfold handle_user_message.
  destruct (is_negative_or_offensive message); [by intros [= <- <-]; left|].
  destruct (match_faq message) as [a|]; [|by right; apply Hsteps].
  destruct (str_truthy (Some a) && negb (is_order_intent message));
    [by intros [= <- <-]; left|by right; apply Hsteps].
Qed.



(** X7: the metadata of a run are the caller's metadata with
    ["customer_id"] set to the customer id of the call: every other key
    is handed on as the caller gave it, and a ["customer_id"] of the
    caller is overwritten. *)
Theorem invoke_metadata_merged message cid ms (h h' : heap) run :
  handle_user_message message cid ms h = Some (Invoke run, h') →
  h' !! run_metadata run
  = Some (<["customer_id" := VStr cid]> (caller_metadata h ms)).
Proof.
  intros [[_ Hno]|(l & Hmd & Hloc)]%handle_heap; [by destruct (Hno run)|].
  rewrite (Hloc run eq_refl).
  apply response_metadata_of_cases in Hmd
      as [(d & Hm & Hl & Hd & ->)|(-> & -> & ->)].
  - unfold caller_metadata. rewrite Hm, Hl. cbn.
    apply list_lookup_insert_eq. by eapply lookup_lt_Some.
  - by rewrite list_lookup_middle, insert_empty.
Qed.

Lemma invoke_metadata_merged_witness :
  let caller : dict :=
    <["customer_id" := VStr "SOMEONE-ELSE"]> {["channel" := VStr "web"]} in
  ∃ run (h' : heap),
    handle_user_message "Track ORD-9999 for me" "CUST-002"
      {| tool_choice := "auto"; metadata := Some 0 |} [caller]
    = Some (Invoke run, h')
    ∧ h' !! run_metadata run
      = Some (<["customer_id" := VStr "CUST-002"]> {["channel" := VStr "web"]}).
Proof.
  intros caller.
  assert (Hrun :
    handle_user_message "Track ORD-9999 for me" "CUST-002"
      {| tool_choice := "auto"; metadata := Some 0 |} [caller]
    = Some (Invoke {| run_agent := bot_agent;
                      prompt := "User asks to track order ORD-9999. Use the tool if available.";
                      run_context := make_context "Track ORD-9999 for me" "CUST-002";
                      run_tool_choice := "auto";
                      run_metadata := 0 |},
            [ <["customer_id" := VStr "CUST-002"]> caller ]))
    by (vm_compute; reflexivity).
  eexists _, _. split; [exact Hrun|].
  rewrite (invoke_metadata_merged _ _ _ _ _ _ Hrun).
  unfold caller_metadata, caller. cbn. by rewrite insert_insert_eq.
Defined.


(** ** The guardrail *)

(** Only negative wording gives the handoff for negative wording. *)
Lemma not_negative_no_negative_handoff message cid ms (h h' : heap) :
  is_negative_or_offensive message = false →
  handle_user_message message cid ms h
  ≠ Some (handoff NEGATIVE_REASON message cid, h').
Proof.
  intros Hneg.
  assert (Hsteps : ∀ oi oid,
    order_or_default message cid ms oi oid h
    ≠ Some (handoff NEGATIVE_REASON message cid, h')).
  { intros oi oid. unfold order_or_default. rewrite M_bind_eq.
    destruct (response_metadata_of ms cid h) as [[l h0]|]; [|done].
    destruct oi.
    - destruct (decide (tool_choice ms = "required")).
      + rewrite M_bind_eq. unfold lift. rewrite order_tool_enabled_context.
        cbn beta iota.
        by destruct (is_order_intent message && str_truthy oid).
      + by destruct (str_truthy oid).
    - by destruct ((40 <? length (split message))
                   || contains "complicated" (lower message)
                   || contains "legal" (lower message)). }
  unfold handle_user_message. rewrite Hneg.
  destruct (match_faq message) as [a|]; [|apply Hsteps].
  destruct (str_truthy (Some a) && negb (is_order_intent message));
    [done|apply Hsteps].
Qed.

(** X8: the guardrail and the routing agree.  The guardrail blocks a
    text exactly when [handle_user_message] hands it off for negative
    wording; a text it lets through goes on unchanged, and a text it
    blocks is replaced by the fixed reminder. *)
Theorem guardrail_blocks_what_routing_escalates user_input cid ms (h : heap) :
  ((civility_guardrail_fn user_input).1 = false
   ↔ handle_user_message user_input cid ms h
     = Some (handoff NEGATIVE_REASON user_input cid, h))
  ∧ ((civility_guardrail_fn user_input).1 = true
     → (civility_guardrail_fn user_input).2 = user_input)
  ∧ ((civility_guardrail_fn user_input).1 = false
     → (civility_guardrail_fn user_input).2 = GENTLE).
Proof.
  unfold civility_guardrail_fn.
  destruct (is_negative_or_offensive user_input) eqn:Hneg; cbn [fst snd].
  - split_and!; [|done..]. split; [intros _|done].
    unfold handle_user_message. by rewrite Hneg.
  - split_and!; [|done..]. split; [done|].
    intros Hrun. by apply not_negative_no_negative_handoff in Hrun.
Qed.

Lemma guardrail_blocks_what_routing_escalates_witness :
  civility_guardrail_fn "You are useless" = (false, GENTLE)
  ∧ handle_user_message "You are useless" "CUST-123" default_settings []
    = Some (handoff NEGATIVE_REASON "You are useless" "CUST-123", []).
Proof.
  destruct (guardrail_blocks_what_routing_escalates "You are useless" "CUST-123"
              default_settings []) as (Hiff & _ & Htext).
  assert (Hblocked : (civility_guardrail_fn "You are useless").1 = false)
    by (vm_compute; reflexivity).
  split.
  - specialize (Htext Hblocked).
    destruct (civility_guardrail_fn "You are useless") as [allowed text].
    cbn in *. by subst.
  - by apply Hiff.
Defined.

(** X9: the reminder passes the guardrail.  Run on its own output, the
    guardrail lets the text through unchanged, whatever the first input
    was. *)
Theorem guardrail_accepts_its_output user_input :
  civility_guardrail_fn (civility_guardrail_fn user_input).2
  = (true, (civility_guardrail_fn user_input).2).
Proof.
  assert (Hgentle : is_negative_or_offensive GENTLE = false)
    by (vm_compute; reflexivity).
  unfold civility_guardrail_fn.
  destruct (is_negative_or_offensive user_input) eqn:Hneg; cbn [fst snd].
  - by rewrite Hgentle.
  - by rewrite Hneg.
Qed.

(** ** The order tool *)

Lemma prefix_app s t : String.prefix s (s +:+ t) = true.
Proof.
  induction s as [|c s IH]; [by destruct t|].
  change (String c s +:+ t) with (String c (s +:+ t)). cbn.
  by destruct (ascii_dec c c).
Qed.

Lemma prefix_split s t : String.prefix s t = true → ∃ u, t = s +:+ u.
Proof.
  revert t. induction s as [|c s IH]; intros t; [by exists t|].
  destruct t as [|c' t]; cbn; [done|].
  destruct (ascii_dec c c') as [<-|]; [|done].
  intros [u ->]%IH. by exists u.
Qed.

(** [needle in hay] says that [hay] is some text, the needle, some text. *)
Lemma contains_spec needle hay :
  contains needle hay = true ↔ ∃ a b, hay = a +:+ needle +:+ b.
Proof.
  split.
  - induction hay as [|c hay IH]; cbn [contains].
    + rewrite orb_false_r. intros [u Hu]%prefix_split. by exists "", u.
    + intros [[u Hu]%prefix_split|(a & b & ->)%IH]%orb_true_iff.
      * by exists "", u.
      * by exists (String c a), b.
  - intros (a & b & ->). induction a as [|c a IH].
    + change ("" +:+ needle +:+ b) with (needle +:+ b).
      destruct (needle +:+ b) eqn:Heq; cbn [contains];
        rewrite <-Heq, prefix_app; done.
    + change (String c a +:+ needle +:+ b) with (String c (a +:+ needle +:+ b)).
      cbn [contains]. by rewrite IH, orb_true_r.
Qed.

Lemma string_app_assoc s1 s2 s3 : (s1 +:+ s2) +:+ s3 = s1 +:+ s2 +:+ s3.
Proof.
  induction s1 as [|c s1 IH]; [done|].
  change (String c s1 +:+ s2) with (String c (s1 +:+ s2)).
  change (String c (s1 +:+ s2) +:+ s3) with (String c ((s1 +:+ s2) +:+ s3)).
  by rewrite IH.
Qed.

Lemma string_app_nil_r s : s +:+ "" = s.
Proof.
  induction s as [|c s IH]; [done|].
  change (String c s +:+ "") with (String c (s +:+ "")). by rewrite IH.
Qed.

(** X10: [get_order_status] raises [KeyError], with the identifier in
    its message, exactly for an identifier that is not a key of the
    table.  For a key it returns a text that starts with the order and
    its status; the ETA follows only when it is neither empty nor
    ["N/A"], the carrier only when there is one. *)
Theorem get_order_status_result (orders : gmap string order) order_id :
  match orders !! order_id with
  | None =>
      get_order_status_in orders order_id
      = Raised (KeyError ("Order not found: " +:+ order_id))
  | Some data =>
      ∃ shown_eta shown_carrier,
        get_order_status_in orders order_id
        = Returned ("Order " +:+ order_id +:+ " → Status: " +:+ status data
                    +:+ shown_eta +:+ shown_carrier)
        ∧ shown_eta
          = (if decide (eta data = "" ∨ eta data = "N/A") then ""
             else ", ETA: " +:+ eta data)
        ∧ shown_carrier
          = match carrier data with
            | Some c => if decide (c = "") then "" else ", Carrier: " +:+ c
            | None => ""
            end
  end.
Proof.
  unfold get_order_status_in.
  destruct (orders !! order_id) as [[st et ca]|]; [|done].
  cbn [status eta carrier].
  eexists _, _. split; [|split; reflexivity].
  unfold str_truthy, fmt.
  destruct ca as [c|]; repeat case_bool_decide; repeat case_decide;
    try (exfalso; tauto); cbn;
    rewrite ?string_app_assoc, ?string_app_nil_r; reflexivity.
Qed.

(** X11: a failed lookup is reported with the identifier that was asked
    for.  When the identifier is not in the table, [get_order_status]
    raises, and the message [_order_tool_error] makes of the exception
    and of the arguments of the call quotes that identifier; without an
    ["order_id"] among the arguments it quotes [UNKNOWN]. *)
Theorem failed_lookup_names_the_order (orders : gmap string order) order_id :
  orders !! order_id = None →
  (∃ e, get_order_status_in orders order_id = Raised e
        ∧ contains ("'" +:+ order_id +:+ "'")
            (_order_tool_error e {["order_id" := VStr order_id]}) = true)
  ∧ (∀ e (args : dict),
        args !! "order_id" = None →
        contains "'UNKNOWN'" (_order_tool_error e args) = true).
Proof.
  intros Hmiss. split.
  - eexists. split; [unfold get_order_status_in; by rewrite Hmiss|].
    unfold _order_tool_error. rewrite lookup_singleton_eq. cbn.
    apply contains_spec.
    exists "Sorry, I couldn’t find details for order ",
           ". Please double-check the ID (e.g., ORD-1001) or ask me to connect you to a human agent.".
    rewrite !string_app_assoc. reflexivity.
  - intros e args Hargs. unfold _order_tool_error. rewrite Hargs. cbn.
    apply contains_spec.
    exists "Sorry, I couldn’t find details for order ",
           ". Please double-check the ID (e.g., ORD-1001) or ask me to connect you to a human agent.".
    reflexivity.
Qed.

Lemma failed_lookup_names_the_order_witness :
  ∃ e, get_order_status "ORD-9999" = Raised e
       ∧ contains "'ORD-9999'"
           (_order_tool_error e {["order_id" := VStr "ORD-9999"]}) = true.
Proof.
  destruct (failed_lookup_names_the_order ORDERS "ORD-9999") as [Hnamed _].
  - vm_compute; reflexivity.
  - exact Hnamed.
Defined.

(** ** The classifiers *)

Lemma contains_context needle a t b :
  contains needle t = true → contains needle (a +:+ t +:+ b) = true.
Proof.
  rewrite !contains_spec. intros (x & y & ->).
  exists (a +:+ x), (y +:+ b). by rewrite !string_app_assoc.
Qed.

Lemma match_faq_in_is_Some faqs t :
  is_Some (match_faq_in faqs t) ↔ ∃ k v, (k, v) ∈ faqs ∧ contains k t = true.
Proof.
  split.
  - intros [v (k & Hin & Hk)%match_faq_in_Some]. eauto.
  - intros (k & v & Hin & Hk).
    destruct (match_faq_in faqs t) eqn:Hnone; [done|exfalso].
    induction faqs as [|[k' v'] faqs IH]; [by apply elem_of_nil in Hin|].
    cbn in Hnone. destruct (contains k' t) eqn:Hk'; [done|].
    apply elem_of_cons in Hin as [[= -> ->]|Hin]; [congruence|by apply IH].
Qed.

(** X12: text around a message takes no order intent and no FAQ match
    away.  A trigger word or a FAQ key counts wherever it stands, inside
    a longer word too: what has order intent keeps it within any longer
    text, and what matches some FAQ topic still matches one. *)
Theorem substring_signals_survive_context a t b :
  (is_order_intent t = true → is_order_intent (a +:+ t +:+ b) = true)
  ∧ (is_Some (match_faq t) → is_Some (match_faq (a +:+ t +:+ b))).
Proof.
  unfold is_order_intent, match_faq, lower. rewrite !map_string_app. split.
  - rewrite !orb_true_iff.
    intros [[H|H]|H]; eauto using contains_context.
  - rewrite !match_faq_in_is_Some. intros (k & v & Hin & Hk).
    exists k, v. split; [done|]. by apply contains_context.
Qed.

Lemma substring_signals_survive_context_witness :
  is_order_intent "The bORDERline case" = true
  ∧ is_Some (match_faq "Is the extended-warranty-plan any good?").
Proof.
  split.
  - apply (substring_signals_survive_context "The b" "ORDER" "line case").
    vm_compute; reflexivity.
  - apply (substring_signals_survive_context "Is the extended-" "warranty"
             "-plan any good?").
    vm_compute. by eexists.
Defined.

(** X13: [match_faq] makes no answer up and misses no key.  What it
    returns is the stored answer of a topic whose key is in the
    lower-cased text, and it returns [None] exactly when no key of the
    table is. *)
Theorem match_faq_sound_and_complete text :
  (∀ v, match_faq text = Some v →
        ∃ k, (k, v) ∈ FAQS ∧ contains k (lower text) = true)
  ∧ (match_faq text = None
     ↔ ∀ k v, (k, v) ∈ FAQS → contains k (lower text) = false).
Proof.
  unfold match_faq. split.
  - intros v. apply match_faq_in_Some.
  - split.
    + intros Hnone k v Hin.
      destruct (contains k (lower text)) eqn:Hk; [|done].
      assert (Hsome : is_Some (match_faq_in FAQS (lower text)))
        by (apply match_faq_in_is_Some; eauto).
      rewrite Hnone in Hsome. by destruct Hsome.
    + intros Hall. apply match_faq_in_none, Forall_forall.
      intros [k v] Hin. by apply (Hall k v).
Qed.

Lemma match_faq_sound_and_complete_witness :
  ∃ k, (k, "All electronics include a 1-year limited warranty covering manufacturing defects.")
         ∈ FAQS
       ∧ contains k (lower "Does the WARRANTY cover this?") = true.
Proof.
  destruct (match_faq_sound_and_complete "Does the WARRANTY cover this?")
    as [Hsound _].
  apply Hsound. vm_compute; reflexivity.
Defined.

Lemma to_lower_to_upper c : Char.to_lower (Char.to_upper c) = Char.to_lower c.
Proof. by_cases_on_char c. Qed.

Lemma to_upper_to_lower c : Char.to_upper (Char.to_lower c) = Char.to_upper c.
Proof. by_cases_on_char c. Qed.

Lemma upper_lower s : upper (lower s) = upper s.
Proof.
  induction s as [|c s IH]; cbn; [done|].
  by rewrite to_upper_to_lower, <-IH.
Qed.

Lemma lower_upper s : lower (upper s) = lower s.
Proof.
  induction s as [|c s IH]; cbn; [done|].
  by rewrite to_lower_to_upper, <-IH.
Qed.

(** X14: the classifiers ignore case.  Two ASCII texts that are equal
    once lower-cased get the same verdict on negative wording, the same
    order intent, the same FAQ answer and the same order identifier. *)
Theorem classifiers_ignore_case text1 text2 :
  is_ascii_text text1 = true → is_ascii_text text2 = true →
  lower text1 = lower text2 →
  is_negative_or_offensive text1 = is_negative_or_offensive text2
  ∧ is_order_intent text1 = is_order_intent text2
  ∧ match_faq text1 = match_faq text2
  ∧ extract_order_id text1 = extract_order_id text2.
Proof.
  intros _ _ Hlow.
  unfold is_negative_or_offensive, is_order_intent, match_faq, extract_order_id.
  rewrite <-(upper_lower text1), <-(upper_lower text2), Hlow. done.
Qed.

Lemma classifiers_ignore_case_witness :
  is_negative_or_offensive "THIS IS AWFUL, TRACK ORD 1003"
  = is_negative_or_offensive "this is awful, track ord 1003"
  ∧ extract_order_id "THIS IS AWFUL, TRACK ORD 1003"
    = extract_order_id "this is awful, track ord 1003".
Proof.
  destruct (classifiers_ignore_case "THIS IS AWFUL, TRACK ORD 1003"
              "this is awful, track ord 1003") as (Hneg & _ & _ & Hid);
    [reflexivity..|].
  split; assumption.
Defined.

(** ** Listed words *)

Lemma path_Lit w (P Q : list ascii) g :
  path (Lit w) (P ++ list_ascii_of_string w ++ Q) (length P) g
    (length P + length (list_ascii_of_string w)) g.
Proof.
  revert P. induction w as [|c w IH]; intros P; cbn.
  - split; [lia|done].
  - exists (S (length P)), g. split.
    + split; [|done]. by rewrite list_lookup_middle.
    + specialize (IH (P ++ [c])). rewrite <-app_assoc in IH. cbn in IH.
      rewrite length_app in IH. cbn [length] in IH.
      replace (length P + 1) with (S (length P)) in IH by lia.
      by replace (length P + S (length (list_ascii_of_string w)))
        with (S (length P) + length (list_ascii_of_string w)) by lia.
Qed.

Lemma path_starred_plain x rest (P Q : list ascii) g :
  path (starred x rest) (P ++ list_ascii_of_string (String x rest) ++ Q)
    (length P) g (length P + length (list_ascii_of_string (String x rest))) g.
Proof.
  unfold starred. cbn [Cat path Opt list_ascii_of_string length app].
  exists (S (length P)), g. split.
  { split; [|done]. by rewrite list_lookup_middle. }
  exists (S (length P)), g. split; [by right|].
  pose proof (path_Lit rest (P ++ [x]) Q g) as H.
  rewrite <-app_assoc, length_app in H. cbn [length app] in H.
  replace (length P + 1) with (S (length P)) in H by lia.
  by replace (length P + S (length (list_ascii_of_string rest)))
    with (S (length P) + length (list_ascii_of_string rest)) by lia.
Qed.

Lemma path_starred_star x rest (P Q : list ascii) g :
  path (starred x rest)
    (P ++ list_ascii_of_string (String x (String "*" rest)) ++ Q)
    (length P) g
    (length P + length (list_ascii_of_string (String x (String "*" rest)))) g.
Proof.
  unfold starred. cbn [Cat path Opt list_ascii_of_string length app].
  exists (S (length P)), g. split.
  { split; [|done]. by rewrite list_lookup_middle. }
  exists (S (S (length P))), g. split.
  { left. split; [|done].
    rewrite (lookup_app_r P) by lia.
    by replace (S (length P) - length P) with 1 by lia. }
  pose proof (path_Lit rest (P ++ [x; "*"%char]) Q g) as H.
  rewrite <-app_assoc, length_app in H. cbn [length app] in H.
  replace (length P + 2) with (S (S (length P))) in H by lia.
  by replace (length P + S (S (length (list_ascii_of_string rest))))
    with (S (S (length P)) + length (list_ascii_of_string rest)) by lia.
Qed.

Lemma path_Alts rs r s i g j g' :
  r ∈ rs → path r s i g j g' → path (Alts rs) s i g j g'.
Proof.
  intros Hin Hp. induction rs as [|r1 rs IH]; [by apply elem_of_nil in Hin|].
  apply elem_of_cons in Hin as [->|Hin].
  - destruct rs; [done|by left].
  - destruct rs as [|r2 rs]; [by apply elem_of_nil in Hin|].
    right. by apply IH.
Qed.

(** word boundaries around a word that stands between two texts *)
Lemma boundary_at_word_start (P W Q : list ascii) c :
  (∀ c', last P = Some c' → Char.is_word c' = false) →
  head W = Some c → Char.is_word c = true →
  at_boundary (P ++ W ++ Q) (length P) = true.
Proof.
  intros HP HW Hc. unfold at_boundary.
  assert (Hi : is_word_at (P ++ W ++ Q) (length P) = true).
  { unfold is_word_at. rewrite lookup_app_r, Nat.sub_diag by lia.
    destruct W as [|c0 W]; [done|]. cbn in *. by injection HW as ->. }
  rewrite Hi. destruct (length P) as [|n] eqn:Hlen; [done|].
  unfold is_word_at. rewrite lookup_app_l by lia.
  destruct (P !! n) as [c'|] eqn:Hc'; [|done].
  rewrite (HP c'); [done|]. by rewrite last_lookup, Hlen.
Qed.

Lemma boundary_at_word_end (P W Q : list ascii) c :
  last W = Some c → Char.is_word c = true →
  (∀ c', head Q = Some c' → Char.is_word c' = false) →
  at_boundary (P ++ W ++ Q) (length P + length W) = true.
Proof.
  intros HW Hc HQ.
  assert (Hlen : length W ≠ 0) by (by destruct W).
  rewrite last_lookup in HW.
  replace (length P + length W) with (S (length P + pred (length W))) by lia.
  rewrite (at_boundary_after_word _ _ c); [|
    by rewrite lookup_app_r, lookup_app_l by lia;
       replace (length P + pred (length W) - length P) with (pred (length W)) by lia
    | done].
  unfold is_word_at. rewrite app_assoc, lookup_app_r by (rewrite length_app; lia).
  replace (S (length P + pred (length W)) - length (P ++ W)) with 0
    by (rewrite length_app; lia).
  destruct (Q !! 0) as [c'|] eqn:Hc'; [|done].
  rewrite (HQ c'); [done|]. by rewrite head_lookup.
Qed.

Lemma word_at_start_head w :
  word_at_start w = true →
  ∃ c, head (list_ascii_of_string w) = Some c ∧ Char.is_word c = true.
Proof. destruct w as [|c w]; [done|]. cbn. eauto. Qed.

Lemma word_at_end_last w :
  word_at_end w = true →
  ∃ c, last (list_ascii_of_string w) = Some c ∧ Char.is_word c = true.
Proof.
  unfold word_at_end. destruct (last (list_ascii_of_string w)); [eauto|done].
Qed.

Lemma word_at_end_false s c :
  word_at_end s = false →
  last (list_ascii_of_string s) = Some c → Char.is_word c = false.
Proof. unfold word_at_end. intros H Hl. by rewrite Hl in H. Qed.

Lemma word_at_start_false s c :
  word_at_start s = false →
  head (list_ascii_of_string s) = Some c → Char.is_word c = false.
Proof. destruct s as [|c' s]; [done|]. cbn. by intros H [= <-]. Qed.

(** A pattern [\b(...|w|...)\b] finds the word [w] where it stands as a
    word of its own. *)
Lemma negative_by_pattern i alts j r w message pre post :
  (OFFENSIVE_PATTERNS ++ NEGATIVE_SENTIMENT_PATTERNS) !! i = Some (word_of alts) →
  alts !! j = Some r →
  (∀ (P Q : list ascii) g,
      path r (P ++ list_ascii_of_string w ++ Q) (length P) g
        (length P + length (list_ascii_of_string w)) g) →
  word_at_start w = true → word_at_end w = true →
  lower message = pre +:+ w +:+ post →
  word_at_end pre = false → word_at_start post = false →
  is_negative_or_offensive message = true.
Proof.
  intros Hpat Halt Hpath (c1 & Hhead & Hc1)%word_at_start_head
         (c2 & Hlast & Hc2)%word_at_end_last Hlow Hpre Hpost.
  unfold is_negative_or_offensive. rewrite Hlow, !chars_app.
  apply existsb_exists. exists (word_of alts). split.
  { apply list_elem_of_In. by eapply list_elem_of_lookup_2. }
  apply bool_decide_eq_true.
  set (P := list_ascii_of_string pre). set (W := list_ascii_of_string w).
  set (Q := list_ascii_of_string post).
  destruct (re_search (word_of alts) (P ++ W ++ Q)) eqn:Hs; [by eexists|exfalso].
  unfold re_search in Hs. rewrite search_from_None in Hs.
  specialize (Hs (length P)). rewrite match_at_None in Hs.
  { apply (Hs ltac:(rewrite !length_app; lia) (length P + length W)
              (Some (length P, length P + length W))).
    unfold word_of. cbn [Cat path].
    exists (length P), None. split.
    { split; [|done]. apply (boundary_at_word_start P W Q c1); [|done..].
      intros c'. by apply word_at_end_false. }
    exists (length P + length W), (Some (length P, length P + length W)).
    split.
    - split; [|done]. exists None. eapply path_Alts.
      + by eapply list_elem_of_lookup_2.
      + apply Hpath.
    - split; [|done]. apply (boundary_at_word_end P W Q c2); [done..|].
      intros c'. by apply word_at_start_false. }
Qed.

Ltac word_path :=
  intros;
  first [apply path_Lit | apply path_starred_plain | apply path_starred_star].

Ltac by_pattern i j :=
  match goal with
  | H : lower _ = _ +:+ ?w +:+ _ |- _ =>
      solve [ eapply (negative_by_pattern i _ j _ w);
              [reflexivity | reflexivity | word_path | reflexivity
              | reflexivity | eassumption | assumption | assumption] ]
  end.

Ltac by_some_pattern :=
  first [ by_pattern 0 0 | by_pattern 0 1 | by_pattern 0 2 | by_pattern 0 3
        | by_pattern 0 4 | by_pattern 0 5
        | by_pattern 1 0 | by_pattern 1 1 | by_pattern 1 2 | by_pattern 1 3
        | by_pattern 2 0 | by_pattern 2 1 | by_pattern 2 2 | by_pattern 2 3
        | by_pattern 2 4 | by_pattern 2 5 | by_pattern 2 6
        | by_pattern 3 0 | by_pattern 3 1 | by_pattern 3 2 | by_pattern 3 3
        | by_pattern 3 4 ].

(** X15: each word or phrase the patterns list is found where it stands
    as a word of its own.  An ASCII message whose lower-cased text has
    one of them with no word character right before it and right after
    it is classified negative or offensive. *)
Theorem listed_word_is_negative w message pre post :
  w ∈ LISTED_WORDS →
  is_ascii_text message = true →
  lower message = pre +:+ w +:+ post →
  word_at_end pre = false →
  word_at_start post = false →
  is_negative_or_offensive message = true.
Proof.
  intros Hw _ Hlow Hpre Hpost. unfold LISTED_WORDS in Hw.
  repeat (apply elem_of_cons in Hw as [->|Hw]; [by_some_pattern|]).
  by apply elem_of_nil in Hw.
Qed.

Lemma listed_word_is_negative_witness :
  is_negative_or_offensive "Please REFUND NOW, thanks" = true.
Proof.
  apply (listed_word_is_negative "refund now" "Please REFUND NOW, thanks"
           "please " ", thanks").
  - unfold LISTED_WORDS. set_solver.
  - reflexivity.
  - reflexivity.
  - reflexivity.
  - reflexivity.
Defined.

(** ** The written forms of an order identifier *)

Lemma digit_is_no_separator c :
  Char.is_digit c = true → one_of ["-"; " "]%char c = false.
Proof. by_cases_on_char c. Qed.

Lemma digit_is_not_O c : Char.is_digit c = true → c ≠ "O"%char.
Proof. by_cases_on_char c. Qed.

Lemma at_boundary_app_l (P X : list ascii) q :
  q < length P → at_boundary (P ++ X) q = at_boundary P q.
Proof.
  intros Hq. unfold at_boundary, is_word_at.
  rewrite lookup_app_l by done.
  destruct q as [|q']; [done|]. by rewrite lookup_app_l by lia.
Qed.

(** A match that starts before an [O] which begins a word of the
    pattern's shape ends before it. *)
Lemma order_shape_before_O (P X : list ascii) p j g :
  p < length P → head X = Some "O"%char →
  order_shape (P ++ X) p j g → order_shape P p j g.
Proof.
  intros Hp HX (Hb & HO & HR & HD' & a & n & Hsep & Hn & Hrun & -> & -> & Hend).
  assert (Hi : (P ++ X) !! length P = Some "O"%char).
  { by rewrite lookup_app_r, Nat.sub_diag, <-head_lookup by lia. }
  assert (Hlt : a + n < length P).
  { destruct (decide (a + n < length P)) as [|Hge]; [done|exfalso].
    assert (Hcases : length P = p + 1 ∨ length P = p + 2
                     ∨ (length P = p + 3 ∧ a = p + 4)
                     ∨ a ≤ length P < a + n ∨ length P = a + n) by lia.
    destruct Hcases as [Heq|[Heq|[[Heq Ha]|[Hin|Heq]]]].
    - rewrite <-Heq, Hi in HR. done.
    - rewrite <-Heq, Hi in HD'. done.
    - destruct Hsep as [->|[_ (c & Hc & Hsep)]]; [lia|].
      rewrite <-Heq, Hi in Hc. by injection Hc as <-.
    - destruct (Hrun (length P) Hin) as (c & Hc & Hdig).
      rewrite Hi in Hc. by injection Hc as <-.
    - destruct (Hrun (a + (n - 1))) as (c & Hc & Hdig); [lia|].
      replace (a + n) with (S (a + (n - 1))) in Hend by lia.
      rewrite (at_boundary_after_word _ _ c) in Hend
        by (done || by apply digit_is_word).
      replace (S (a + (n - 1))) with (length P) in Hend by lia.
      unfold is_word_at in Hend. rewrite Hi in Hend. done. }
  rewrite at_boundary_app_l in Hb, Hend by lia.
  rewrite lookup_app_l in HO, HR, HD' by lia.
  split_and!; try done.
  exists a, n. split_and!; try done; try lia.
  - destruct Hsep as [->|[-> (c & Hc & Hsep)]]; [by left|right].
    rewrite lookup_app_l in Hc by lia. eauto.
  - intros q Hq. rewrite <-(lookup_app_l P X) by lia. by apply Hrun.
Qed.

Section Written.
Variables P Sp D Q : list ascii.
Hypothesis HSp : Sp = [] ∨ Sp = ["-"%char] ∨ Sp = [" "%char].
Hypothesis HD : Forall (λ c, Char.is_digit c = true) D.

Local Abbreviation s := (P ++ ["O"; "R"; "D"]%char ++ Sp ++ D ++ Q).
Local Abbreviation i := (length P).
Local Abbreviation a0 := (length P + 3 + length Sp).

Lemma written_from q : s !! (i + q) = (["O"; "R"; "D"]%char ++ Sp ++ D ++ Q) !! q.
Proof. rewrite lookup_app_r by lia. f_equal. lia. Qed.

Lemma written_O : s !! i = Some "O"%char.
Proof. pose proof (written_from 0) as H. by rewrite Nat.add_0_r in H. Qed.

Lemma written_length : length s = a0 + length D + length Q.
Proof. rewrite !length_app. cbn. lia. Qed.

Lemma written_separator c : Sp = [c] → s !! (i + 3) = Some c.
Proof. intros HSp1. by rewrite written_from, HSp1. Qed.

Lemma written_tail q : s !! (a0 + q) = (D ++ Q) !! q.
Proof.
  rewrite (app_assoc P), (app_assoc _ Sp).
  rewrite lookup_app_r by (rewrite !length_app; cbn; lia).
  f_equal. rewrite !length_app. cbn. lia.
Qed.

Lemma written_digit q : q < length D → s !! (a0 + q) = D !! q.
Proof. intros Hq. by rewrite written_tail, lookup_app_l. Qed.

Lemma written_after q : s !! (a0 + length D + q) = Q !! q.
Proof.
  rewrite <-Nat.add_assoc, written_tail, lookup_app_r by lia.
  f_equal. lia.
Qed.

Lemma written_digit_at q :
  q < length D → ∃ c, s !! (a0 + q) = Some c ∧ Char.is_digit c = true.
Proof.
  intros Hq. rewrite written_digit by done.
  destruct (lookup_lt_is_Some_2 D q) as [c Hc]; [done|].
  exists c. split; [done|]. by eapply (proj1 (Forall_lookup _ _) HD).
Qed.

Lemma written_digits : run_of Char.is_digit s a0 (length D).
Proof.
  intros q Hq. replace q with (a0 + (q - a0)) by lia.
  apply written_digit_at. lia.
Qed.

(** Where the digits of a match at the identifier start. *)
Lemma written_digits_start j g :
  1 ≤ length D →
  order_shape s i j g →
  ∃ n, 3 ≤ n ≤ 6 ∧ run_of Char.is_digit s a0 n ∧ j = a0 + n
       ∧ g = Some (a0, j) ∧ at_boundary s j = true.
Proof.
  intros HlenD (_ & _ & _ & _ & a & n & Hsep & Hn & Hrun & -> & -> & Hend).
  assert (Ha : a = a0); [|subst a; by exists n].
  destruct (written_digit_at 0 ltac:(lia)) as (d0 & Hd0 & Hdig0).
  rewrite Nat.add_0_r in Hd0.
  destruct HSp as [HSp0|[HSp0|HSp0]].
  - assert (Hlen : length Sp = 0) by by rewrite HSp0.
    destruct Hsep as [->|[-> (c & Hc & Hsep)]]; [lia|exfalso].
    replace (i + 3 + length Sp) with (i + 3) in Hd0 by lia.
    rewrite Hd0 in Hc. injection Hc as <-.
    by rewrite digit_is_no_separator in Hsep.
  - assert (Hlen : length Sp = 1) by by rewrite HSp0.
    destruct Hsep as [->|[-> _]]; [exfalso|lia].
    destruct (Hrun (i + 3)) as (c & Hc & Hdig); [lia|].
    rewrite (written_separator "-"%char) in Hc by done. by injection Hc as <-.
  - assert (Hlen : length Sp = 1) by by rewrite HSp0.
    destruct Hsep as [->|[-> _]]; [exfalso|lia].
    destruct (Hrun (i + 3)) as (c & Hc & Hdig); [lia|].
    rewrite (written_separator " "%char) in Hc by done. by injection Hc as <-.
Qed.

(** A match cannot stop inside the digits. *)
Lemma written_no_end_inside n :
  1 ≤ n < length D → at_boundary s (a0 + n) = false.
Proof.
  intros Hn.
  destruct (written_digit_at (n - 1) ltac:(lia)) as (c & Hc & Hdig).
  destruct (written_digit_at n ltac:(lia)) as (c' & Hc' & Hdig').
  replace (a0 + n) with (S (a0 + (n - 1))) by lia.
  rewrite (at_boundary_after_word _ _ c) by (done || by apply digit_is_word).
  replace (S (a0 + (n - 1))) with (a0 + n) by lia.
  unfold is_word_at. rewrite Hc'. by rewrite digit_is_word.
Qed.

(** No match starts after the [O] of the identifier when nothing
    follows the digits. *)
Lemma written_no_later p j g :
  Q = [] → i < p → ¬ order_shape s p j g.
Proof.
  intros HQ Hp (_ & HO & _).
  assert (Hcases : p = i + 1 ∨ p = i + 2 ∨ (p = i + 3 ∧ length Sp = 1)
                   ∨ (a0 ≤ p < a0 + length D) ∨ a0 + length D ≤ p).
  { destruct HSp as [HSp0|[HSp0|HSp0]]; rewrite HSp0; cbn; lia. }
  destruct Hcases as [->|[->|[[-> HlenS]|[Hin|Hout]]]].
  - by rewrite written_from in HO.
  - by rewrite written_from in HO.
  - destruct HSp as [HSp0|[HSp0|HSp0]]; [by rewrite HSp0 in HlenS|..];
      by rewrite (written_separator _ HSp0) in HO.
  - destruct (written_digits p) as (c & Hc & Hdig); [lia|].
    rewrite Hc in HO. injection HO as ->. done.
  - rewrite lookup_ge_None_2 in HO; [done|].
    rewrite written_length, HQ. cbn. lia.
Qed.

Lemma written_start :
  (∀ c, last P = Some c → Char.is_word c = false) →
  at_boundary s i = true.
Proof.
  intros HP. unfold at_boundary.
  assert (Hi : is_word_at s i = true).
  { unfold is_word_at. by rewrite written_O. }
  rewrite Hi. destruct i as [|n] eqn:Hlen; [done|].
  unfold is_word_at. rewrite lookup_app_l by lia.
  destruct (P !! n) as [c|] eqn:Hc; [|done].
  rewrite (HP c); [done|]. by rewrite last_lookup, Hlen.
Qed.

Lemma written_end :
  1 ≤ length D →
  (∀ c, head Q = Some c → Char.is_word c = false) →
  at_boundary s (a0 + length D) = true.
Proof.
  intros HlenD HQ.
  destruct (written_digit_at (length D - 1) ltac:(lia)) as (c & Hc & Hdig).
  replace (a0 + length D) with (S (a0 + (length D - 1))) by lia.
  rewrite (at_boundary_after_word _ _ c) by (done || by apply digit_is_word).
  replace (S (a0 + (length D - 1))) with (a0 + length D + 0) by lia.
  unfold is_word_at. rewrite written_after.
  destruct (Q !! 0) as [c'|] eqn:Hc'; [|done].
  rewrite (HQ c'); [done|]. by rewrite head_lookup.
Qed.

Lemma written_shape :
  3 ≤ length D ≤ 6 →
  (∀ c, last P = Some c → Char.is_word c = false) →
  (∀ c, head Q = Some c → Char.is_word c = false) →
  order_shape s i (a0 + length D) (Some (a0, a0 + length D)).
Proof.
  intros HlenD HP HQ. split_and!.
  - by apply written_start.
  - apply written_O.
  - by rewrite written_from.
  - by rewrite written_from.
  - exists a0, (length D). split_and!; try done; try lia.
    + destruct HSp as [HSp0|[HSp0|HSp0]].
      * left. by rewrite HSp0; cbn; lia.
      * right. split; [by rewrite HSp0; cbn; lia|].
        exists "-"%char. by rewrite (written_separator _ HSp0).
      * right. split; [by rewrite HSp0; cbn; lia|].
        exists " "%char. by rewrite (written_separator _ HSp0).
    + apply written_digits.
    + apply written_end; [lia|done].
Qed.

Lemma written_unique j g :
  3 ≤ length D ≤ 6 →
  (∀ c, head Q = Some c → Char.is_word c = false) →
  order_shape s i j g →
  j = a0 + length D ∧ g = Some (a0, a0 + length D).
Proof.
  intros HlenD HQ (n & Hn & Hrun & -> & -> & Hend)%written_digits_start; [|lia].
  assert (Hn' : n = length D); [|by subst n].
  destruct (decide (n = length D)) as [|Hne]; [done|exfalso].
  destruct (decide (n < length D)) as [Hlt|Hge].
  - by rewrite written_no_end_inside in Hend by lia.
  - destruct (Hrun (a0 + length D)) as (c & Hc & Hdig); [lia|].
    replace (a0 + length D) with (a0 + length D + 0) in Hc by lia.
    rewrite written_after in Hc.
    pose proof (HQ c) as Hw. rewrite head_lookup in Hw.
    apply digit_is_word in Hdig. rewrite Hw in Hdig; done.
Qed.

Lemma written_search :
  3 ≤ length D ≤ 6 →
  (∀ c, last P = Some c → Char.is_word c = false) →
  (∀ c, head Q = Some c → Char.is_word c = false) →
  (∀ p, p ≤ i → match_at ORDER_ID_PATTERN P p = None) →
  re_search ORDER_ID_PATTERN s
  = Some (ReMatch (i, a0 + length D) (Some (a0, a0 + length D))).
Proof.
  intros HlenD HP HQ Hnone. apply (search_from_first _ _ _ _ i).
  - rewrite !length_app. lia.
  - intros p [_ Hp]. apply match_at_None. intros j g Hpath.
    apply order_id_path, order_shape_before_O, order_id_path in Hpath;
      [|done..].
    specialize (Hnone p). rewrite match_at_None in Hnone.
    apply (Hnone ltac:(lia) j g Hpath).
  - apply match_at_unique.
    + by apply order_id_path, written_shape.
    + intros j g Hpath. by apply written_unique, order_id_path.
Qed.

Lemma written_slice : slice s (a0, a0 + length D) = D.
Proof.
  unfold slice. cbn [fst snd].
  replace (a0 + length D - a0) with (length D) by lia.
  rewrite (app_assoc P), (app_assoc _ Sp).
  rewrite drop_app_length' by (rewrite !length_app; cbn; lia).
  by rewrite take_app_length.
Qed.

(** With fewer than 3 or more than 6 digits, and nothing after them,
    there is no match at the identifier or after it. *)
Lemma written_rejected :
  Q = [] →
  length D < 3 ∨ 6 < length D →
  (∀ p, p ≤ i → match_at ORDER_ID_PATTERN P p = None) →
  re_search ORDER_ID_PATTERN s = None.
Proof.
  intros HQ HlenD Hnone. apply search_from_None. intros p _.
  apply match_at_None. intros j g Hshape%order_id_path.
  destruct (decide (p < i)) as [Hlt|Hge].
  { apply order_shape_before_O, order_id_path in Hshape; [|done..].
    specialize (Hnone p). rewrite match_at_None in Hnone.
    apply (Hnone ltac:(lia) j g Hshape). }
  destruct (decide (p = i)) as [->|Hne];
    [|by apply (written_no_later p j g HQ ltac:(lia))].
  assert (HlenS : length Sp ≤ 1)
    by (destruct HSp as [HSp0|[HSp0|HSp0]]; rewrite HSp0; cbn; lia).
  destruct (decide (length D = 0)) as [HD0|HD0].
  - destruct Hshape as (_ & _ & _ & _ & a & n & Hsep & Hn & Hrun & _).
    destruct (Hrun (a + (n - 1))) as (c & Hc%lookup_lt_Some & _); [lia|].
    rewrite written_length, HQ in Hc. cbn in Hc. lia.
  - apply written_digits_start in Hshape
        as (n & Hn & Hrun & -> & -> & Hend); [|lia].
    assert (Hle : n ≤ length D).
    { destruct (Hrun (a0 + (n - 1))) as (c & Hc%lookup_lt_Some & _); [lia|].
      rewrite written_length, HQ in Hc. cbn in Hc. lia. }
    rewrite written_no_end_inside in Hend by lia. done.
Qed.

End Written.

Lemma is_ord_chars w :
  is_ord w = true → list_ascii_of_string (upper w) = ["O"; "R"; "D"]%char.
Proof. intros ->%bool_decide_eq_true. done. Qed.

Lemma is_separator_chars sep :
  is_separator sep = true →
  upper sep = sep
  ∧ (list_ascii_of_string sep = []
     ∨ list_ascii_of_string sep = ["-"%char]
     ∨ list_ascii_of_string sep = [" "%char]).
Proof.
  intros H%bool_decide_eq_true. rewrite !elem_of_cons, elem_of_nil in H.
  destruct H as [->|[->|[->|[]]]]; split; eauto.
Qed.

(** X16: the written forms of an identifier come out in the canonical
    one.  [ORD] in any case, followed by a hyphen, a blank or nothing and
    by 3 to 6 digits, standing as a word of its own in ASCII text with no
    identifier before it, is extracted as [ORD-] and the digits. *)
Theorem extract_order_id_written_forms pre w sep digits post :
  is_ascii_text pre = true → is_ascii_text post = true →
  is_ord w = true →
  is_separator sep = true →
  all_chars Char.is_digit digits = true →
  3 ≤ String.length digits ≤ 6 →
  word_at_end pre = false →
  word_at_start post = false →
  extract_order_id pre = None →
  extract_order_id (pre +:+ w +:+ sep +:+ digits +:+ post)
  = Some ("ORD-" +:+ digits).
Proof.
  intros _ _ Hw [Hsep Hchars]%is_separator_chars Hdig Hlen Hpre Hpost Hnone.
  unfold extract_order_id, upper.
  rewrite !map_string_app, !chars_app.
  fold (upper pre) (upper post) (upper digits) (upper w) (upper sep).
  rewrite (digits_upper digits), (is_ord_chars w), Hsep by done.
  rewrite string_length_chars in Hlen.
  rewrite written_search; cbn [group1].
  - rewrite written_slice. by rewrite string_of_list_ascii_of_string.
  - done.
  - by apply all_chars_Forall.
  - done.
  - intros c. by apply word_at_end_upper.
  - intros c. by apply word_at_start_upper.
  - by apply extract_order_id_None.
Qed.

Lemma extract_order_id_written_forms_witness :
  extract_order_id "where is Ord 4711?" = Some "ORD-4711"
  ∧ extract_order_id "ord123456" = Some "ORD-123456".
Proof.
  split.
  - apply (extract_order_id_written_forms "where is " "Ord" " " "4711" "?");
      first [reflexivity | cbn; lia | vm_compute; reflexivity].
  - apply (extract_order_id_written_forms "" "ord" "" "123456" "");
      first [reflexivity | cbn; lia | vm_compute; reflexivity].
Defined.

(** X17: the number of digits is checked, not cut.  At the end of an
    ASCII text with no identifier before it, [ORD] with fewer than 3 or
    more than 6 digits gives no identifier at all. *)
Theorem extract_order_id_rejects_other_lengths pre w sep digits :
  is_ascii_text pre = true →
  is_ord w = true →
  is_separator sep = true →
  all_chars Char.is_digit digits = true →
  String.length digits < 3 ∨ 6 < String.length digits →
  extract_order_id pre = None →
  extract_order_id (pre +:+ w +:+ sep +:+ digits) = None.
Proof.
  intros _ Hw [Hsep Hchars]%is_separator_chars Hdig Hlen Hnone.
  unfold extract_order_id, upper.
  rewrite !map_string_app, !chars_app.
  fold (upper pre) (upper digits) (upper w) (upper sep).
  rewrite (digits_upper digits), (is_ord_chars w), Hsep by done.
  rewrite string_length_chars in Hlen.
  rewrite <-(app_nil_r (list_ascii_of_string digits)).
  rewrite written_rejected; try done.
  - by apply all_chars_Forall.
  - by apply extract_order_id_None.
Qed.

Lemma extract_order_id_rejects_other_lengths_witness :
  extract_order_id "my number is ORD-1234567" = None
  ∧ extract_order_id "ord 12" = None.
Proof.
  split.
  - apply (extract_order_id_rejects_other_lengths "my number is " "ORD" "-" "1234567");
      first [reflexivity | cbn; lia | vm_compute; reflexivity].
  - apply (extract_order_id_rejects_other_lengths "" "ord" " " "12");
      first [reflexivity | cbn; lia | vm_compute; reflexivity].
Defined.


(** ** The word count *)

Lemma split_go_bound cur s :
  2 * length (split_go cur s)
  ≤ String.length s + match cur with [] => 1 | _ => 2 end.
Proof.
  revert cur. induction s as [|c s IH]; intros cur; cbn [split_go String.length].
  - destruct cur; cbn; lia.
  - destruct (Char.is_space c).
    + rewrite length_app. specialize (IH []). cbn in IH.
      destruct cur; cbn in *; lia.
    + specialize (IH (c :: cur)). cbn in IH. destruct cur; cbn; lia.
Qed.

(** X18: words need room.  An ASCII text of [n] characters has at most
    [(n + 1) / 2] words, so that a message of at most 80 characters is
    never a complex request for its length: it is one exactly when it
    contains ["complicated"] or ["legal"]. *)
Theorem word_count_bound message :
  is_ascii_text message = true →
  2 * length (split message) ≤ String.length message + 1
  ∧ (String.length message ≤ 80 →
     is_complex message
     = contains "complicated" (lower message) || contains "legal" (lower message)).
Proof.
  intros _. pose proof (split_go_bound [] message) as Hbound.
  cbn in Hbound. fold (split message) in Hbound. split; [lia|].
  intros Hlen. unfold is_complex.
  by rewrite (proj2 (Nat.ltb_ge _ _)) by lia.
Qed.

Lemma word_count_bound_witness :
  2 * length (split "a b c d e") ≤ String.length "a b c d e" + 1
  ∧ is_complex "a b c d e" = false.
Proof.
  destruct (word_count_bound "a b c d e") as [Hbound Hshort]; [reflexivity|].
  split; [exact Hbound|]. rewrite Hshort by (cbn; lia). reflexivity.
Defined.

(** ** What negative wording is made of *)

Lemma path_Lit_inv w s i g j g' :
  path (Lit w) s i g j g' →
  j = i + length (list_ascii_of_string w) ∧ g' = g
  ∧ ∀ q, q < length (list_ascii_of_string w) →
         s !! (i + q) = list_ascii_of_string w !! q.
Proof.
  revert i. induction w as [|c w IH]; intros i; cbn.
  - intros [-> ->]. split_and!; [lia|done|]. intros q Hq. lia.
  - intros (m & gm & (Hc & -> & ->) & (-> & -> & Hrest)%IH).
    split_and!; [lia|done|]. intros [|q] Hq.
    + by rewrite Nat.add_0_r.
    + replace (i + S q) with (S i + q) by lia. apply Hrest. lia.
Qed.

Lemma path_starred_inv x rest s i g j g' :
  path (starred x rest) s i g j g' →
  ∃ w, (w = String x rest ∨ w = String x (String "*" rest))
       ∧ j = i + length (list_ascii_of_string w) ∧ g' = g
       ∧ ∀ q, q < length (list_ascii_of_string w) →
              s !! (i + q) = list_ascii_of_string w !! q.
Proof.
  unfold starred. cbn [Cat path Opt].
  intros (m & gm & (Hx & -> & ->) & m' & gm' & Hstar & Hrest).
  destruct Hstar as [(Hs & -> & ->)|[-> ->]];
    apply path_Lit_inv in Hrest as (-> & -> & Hrest).
  - exists (String x (String "*" rest)). split; [by right|].
    cbn [list_ascii_of_string length]. split_and!; [lia|done|].
    intros [|[|q]] Hq.
    + by rewrite Nat.add_0_r.
    + by replace (i + 1) with (S i) by lia.
    + replace (i + S (S q)) with (S (S i) + q) by lia. apply Hrest. lia.
  - exists (String x rest). split; [by left|].
    cbn [list_ascii_of_string length]. split_and!; [lia|done|].
    intros [|q] Hq.
    + by rewrite Nat.add_0_r.
    + replace (i + S q) with (S i + q) by lia. apply Hrest. lia.
Qed.

Lemma path_Alts_inv rs s i g j g' :
  path (Alts rs) s i g j g' → ∃ r, r ∈ rs ∧ path r s i g j g'.
Proof.
  induction rs as [|r1 rs IH]; cbn.
  - by intros ((c & _ & Hc) & _).
  - destruct rs as [|r2 rs].
    + intros Hp. exists r1. split; [left|done].
    + intros [Hp|Hp].
      * exists r1. split; [left|done].
      * destruct (IH Hp) as (r & Hin & Hr). exists r. split; [by right|done].
Qed.

Lemma string_of_list_ascii_app l1 l2 :
  string_of_list_ascii (l1 ++ l2)
  = string_of_list_ascii l1 +:+ string_of_list_ascii l2.
Proof.
  induction l1 as [|c l1 IH]; [done|]. cbn [app string_of_list_ascii].
  rewrite IH. done.
Qed.

(** The text around a segment of a list. *)
Lemma segment_split (s l : list ascii) i :
  l ≠ [] →
  (∀ q, q < length l → s !! (i + q) = l !! q) →
  s = take i s ++ l ++ drop (i + length l) s ∧ length (take i s) = i.
Proof.
  intros Hl Hseg.
  assert (Hlen : i + length l ≤ length s).
  { destruct l as [|c l]; [done|].
    specialize (Hseg (length l) ltac:(cbn; lia)).
    assert (is_Some ((c :: l) !! length l)) as [c' Hc']
      by (apply lookup_lt_is_Some; cbn; lia).
    rewrite Hc' in Hseg. apply lookup_lt_Some in Hseg. cbn. lia. }
  split; [|rewrite length_take; lia].
  apply list_eq. intros q.
  destruct (decide (q < i)) as [Hq|Hq].
  { by rewrite lookup_app_l, lookup_take_lt by (rewrite ?length_take; lia). }
  rewrite lookup_app_r by (rewrite length_take; lia).
  rewrite length_take, Nat.min_l by lia.
  destruct (decide (q - i < length l)) as [Hq'|Hq'].
  - rewrite lookup_app_l by done. rewrite <-Hseg by done. f_equal. lia.
  - rewrite lookup_app_r by lia. rewrite lookup_drop. f_equal. lia.
Qed.

(** A word found between two word boundaries stands between two texts
    that do not touch it with a word character. *)
Lemma word_between_boundaries (s : list ascii) i w :
  word_at_start w = true → word_at_end w = true →
  (∀ q, q < length (list_ascii_of_string w) →
        s !! (i + q) = list_ascii_of_string w !! q) →
  at_boundary s i = true →
  at_boundary s (i + length (list_ascii_of_string w)) = true →
  ∃ pre post,
    string_of_list_ascii s = pre +:+ w +:+ post
    ∧ word_at_end pre = false ∧ word_at_start post = false.
Proof.
  intros Hstart Hend Hseg Hb1 Hb2.
  set (W := list_ascii_of_string w) in *.
  assert (HW : W ≠ []) by (unfold W; by destruct w).
  destruct (segment_split s W i HW Hseg) as [Hs Hlen].
  exists (string_of_list_ascii (take i s)),
         (string_of_list_ascii (drop (i + length W) s)).
  split_and!.
  - rewrite Hs at 1. rewrite !string_of_list_ascii_app.
    unfold W. by rewrite string_of_list_ascii_of_string.
  - unfold word_at_end. rewrite list_ascii_of_string_of_list_ascii.
    rewrite last_lookup, Hlen.
    assert (Hi : is_word_at s i = true).
    { unfold is_word_at. specialize (Hseg 0 ltac:(destruct W; [done|cbn; lia])).
      rewrite Nat.add_0_r in Hseg. rewrite Hseg.
      unfold W. destruct w as [|c w]; [done|]. done. }
    unfold at_boundary in Hb1. rewrite Hi in Hb1.
    destruct i as [|n]; [done|]. cbn [pred].
    rewrite lookup_take_lt by lia.
    unfold is_word_at in Hb1.
    destruct (s !! n) as [c|]; [|done]. by destruct (Char.is_word c).
  - assert (Hprev : ∃ c, s !! (i + pred (length W)) = Some c
                         ∧ Char.is_word c = true).
    { unfold word_at_end in Hend. fold W in Hend. rewrite last_lookup in Hend.
      rewrite Hseg by (destruct W; [done|cbn; lia]).
      destruct (W !! pred (length W)) as [c|]; [eauto|done]. }
    destruct Hprev as (c & Hc & Hword).
    replace (i + length W) with (S (i + pred (length W))) in Hb2
      by (destruct W; [done|cbn; lia]).
    rewrite (at_boundary_after_word _ _ c) in Hb2 by done.
    replace (S (i + pred (length W))) with (i + length W) in Hb2
      by (destruct W; [done|cbn; lia]).
    unfold is_word_at in Hb2.
    destruct (string_of_list_ascii (drop (i + length W) s)) as [|c' post] eqn:Hpost;
      [done|].
    apply (f_equal list_ascii_of_string) in Hpost.
    rewrite list_ascii_of_string_of_list_ascii in Hpost. cbn in Hpost.
    assert (Hc' : s !! (i + length W) = Some c').
    { rewrite <-(Nat.add_0_r (i + length W)), <-lookup_drop, Hpost. done. }
    rewrite Hc' in Hb2. cbn. by destruct (Char.is_word c').
Qed.

(** What an alternative of the patterns spells. *)
Lemma Lit_spells w s i g j g' :
  bool_decide (w ∈ LISTED_WORDS) = true →
  word_at_start w = true → word_at_end w = true →
  path (Lit w) s i g j g' →
  ∃ w, w ∈ LISTED_WORDS ∧ word_at_start w = true ∧ word_at_end w = true
       ∧ j = i + length (list_ascii_of_string w)
       ∧ ∀ q, q < length (list_ascii_of_string w) →
              s !! (i + q) = list_ascii_of_string w !! q.
Proof.
  intros Hin%bool_decide_eq_true Hs He (-> & _ & Hseg)%path_Lit_inv.
  by exists w.
Qed.

Lemma starred_spells x rest s i g j g' :
  bool_decide (String x rest ∈ LISTED_WORDS) = true →
  bool_decide (String x (String "*" rest) ∈ LISTED_WORDS) = true →
  Char.is_word x = true → word_at_end rest = true →
  path (starred x rest) s i g j g' →
  ∃ w, w ∈ LISTED_WORDS ∧ word_at_start w = true ∧ word_at_end w = true
       ∧ j = i + length (list_ascii_of_string w)
       ∧ ∀ q, q < length (list_ascii_of_string w) →
              s !! (i + q) = list_ascii_of_string w !! q.
Proof.
  intros H1%bool_decide_eq_true H2%bool_decide_eq_true Hx Hrest
         (w & Hw & -> & _ & Hseg)%path_starred_inv.
  exists w. destruct Hw as [-> | ->]; split_and!; try done.
  - unfold word_at_end in *. cbn [list_ascii_of_string].
    destruct (list_ascii_of_string rest) as [|c l] eqn:Hl; [done|].
    by rewrite last_cons_cons.
  - unfold word_at_end in *. cbn [list_ascii_of_string].
    destruct (list_ascii_of_string rest) as [|c l] eqn:Hl; [done|].
    by rewrite !last_cons_cons.
Qed.

Lemma word_of_match_has_listed_word alts t :
  (∀ r, r ∈ alts → ∀ s i g j g', path r s i g j g' →
     ∃ w, w ∈ LISTED_WORDS ∧ word_at_start w = true ∧ word_at_end w = true
          ∧ j = i + length (list_ascii_of_string w)
          ∧ ∀ q, q < length (list_ascii_of_string w) →
                 s !! (i + q) = list_ascii_of_string w !! q) →
  is_Some (re_search (word_of alts) (list_ascii_of_string t)) →
  ∃ w pre post,
    w ∈ LISTED_WORDS ∧ t = pre +:+ w +:+ post
    ∧ word_at_end pre = false ∧ word_at_start post = false.
Proof.
  intros Hspell [m Hm]. unfold re_search in Hm.
  apply search_from_Some in Hm as (i & _ & Hm).
  apply match_at_Some in Hm as (j & _ & Hpath).
  unfold word_of in Hpath. cbn [Cat path] in Hpath.
  destruct Hpath as (? & ? & (Hb1 & -> & ->) & m' & gm
                     & ((g0 & Halts) & ->) & (Hb2 & -> & _)).
  apply path_Alts_inv in Halts as (r & Hin & Hr).
  destruct (Hspell r Hin _ _ _ _ _ Hr) as (w & Hw & Hstart & Hend & -> & Hseg).
  destruct (word_between_boundaries _ i w Hstart Hend Hseg Hb1 Hb2)
    as (pre & post & Ht & Hpre & Hpost).
  rewrite string_of_list_ascii_of_string in Ht. by exists w, pre, post.
Qed.

Ltac spelled :=
  intros ? ? ? ? ?;
  first [ apply Lit_spells; reflexivity
        | apply starred_spells; reflexivity ].

(** X19: negative wording is a listed word standing as a word of its
    own, and nothing else.  The lower-cased text of every ASCII message
    that is classified negative or offensive has one of the listed words
    or phrases in it, with no word character right before it and right
    after it. *)
Theorem negative_has_listed_word message :
  is_ascii_text message = true →
  is_negative_or_offensive message = true →
  ∃ w pre post,
    w ∈ LISTED_WORDS ∧ lower message = pre +:+ w +:+ post
    ∧ word_at_end pre = false ∧ word_at_start post = false.
Proof.
  intros _. unfold is_negative_or_offensive.
  intros (pat & Hin%list_elem_of_In & Hpat%bool_decide_eq_true)%existsb_exists.
  unfold OFFENSIVE_PATTERNS, NEGATIVE_SENTIMENT_PATTERNS in Hin.
  cbn [app] in Hin.
  repeat (apply elem_of_cons in Hin as [->|Hin];
    [ refine (word_of_match_has_listed_word _ _ _ Hpat);
      intros r Hr;
      repeat (apply elem_of_cons in Hr as [->|Hr]; [spelled|]);
      by apply elem_of_nil in Hr |]).
  by apply elem_of_nil in Hin.
Qed.

Lemma negative_has_listed_word_witness :
  ∃ w pre post,
    w ∈ LISTED_WORDS
    ∧ lower "That was AWFUL." = pre +:+ w +:+ post
    ∧ word_at_end pre = false ∧ word_at_start post = false.
Proof.
  apply (negative_has_listed_word "That was AWFUL.").
  - reflexivity.
  - vm_compute; reflexivity.
Defined.

(** ** The digits of an extracted identifier *)





(** ** The demo calls of the script *)

Example demo_faq :
  handle_user_message "Hi! What's your return policy?" "CUST-789" default_settings []
  = Some (Reply "You can return unopened items within 30 days for a full refund.", []).
Proof. vm_compute. reflexivity. Qed.

Example demo_track_auto :
  handle_user_message "Can you track my order ORD-1001?" "CUST-789"
    {| tool_choice := "auto"; metadata := Some 0 |} [ {["channel" := VStr "web"]} ]
  = Some (Invoke {| run_agent := bot_agent;
                    prompt := "User asks to track order ORD-1001. Use the tool if available.";
                    run_context := make_context "Can you track my order ORD-1001?" "CUST-789";
                    run_tool_choice := "auto";
                    run_metadata := 0 |},
          [ <["customer_id" := VStr "CUST-789"]> {["channel" := VStr "web"]} ]).
Proof. vm_compute. reflexivity. Qed.

Example demo_status_required :
  handle_user_message "Status for ORD-1002 please." "CUST-001"
    {| tool_choice := "required"; metadata := None |} []
  = Some (Invoke {| run_agent := bot_agent;
                    prompt := "Fetch the status for ORD-1002.";
                    run_context := make_context "Status for ORD-1002 please." "CUST-001";
                    run_tool_choice := "required";
                    run_metadata := 0 |},
          [ {["customer_id" := VStr "CUST-001"]} ]).
Proof. vm_compute. reflexivity. Qed.

Example demo_missing_id :
  handle_user_message "I want the status of my order" "CUST-002" default_settings []
  = Some (Reply ASK_FOR_ID, [ {["customer_id" := VStr "CUST-002"]} ]).
Proof. vm_compute. reflexivity. Qed.

Example demo_negative :
  handle_user_message
    "This is the worst service ever, I'm furious! Track my order ORD-1003."
    "CUST-123" default_settings []
  = Some (handoff NEGATIVE_REASON
            "This is the worst service ever, I'm furious! Track my order ORD-1003."
            "CUST-123", []).
Proof. vm_compute. reflexivity. Qed.

(** The long message of the last demo mentions the warranty: step 3
    answers it from the FAQ before step 5 looks for ["legal"]. *)
Example demo_long_message :
  handle_user_message
    "Hello, I need help with a multi-country warranty claim involving two shipments, a customs dispute, and a missed delivery window, plus legal follow-up."
    "CUST-555" default_settings []
  = Some (Reply "All electronics include a 1-year limited warranty covering manufacturing defects.", []).
Proof. vm_compute. reflexivity. Qed.

Example demo_legal :
  handle_user_message "I need legal advice." "CUST-555" default_settings []
  = Some (handoff COMPLEX_REASON "I need legal advice." "CUST-555",
          [ {["customer_id" := VStr "CUST-555"]} ]).
Proof. vm_compute. reflexivity. Qed.

Example order_ids :
  extract_order_id "ord 4567890, ord 77, Ord123456." = Some "ORD-123456"
  ∧ extract_order_id "ORD-1234567" = None
  ∧ extract_order_id "order ord-12" = None.
Proof. vm_compute. done. Qed.

Example negative_words :
  is_negative_or_offensive "what a s*it show" = true
  ∧ is_negative_or_offensive "I hated it; complaints follow" = false.
Proof. vm_compute. done. Qed.

Example word_count : split "  one two	three
 four  " = ["one"; "two"; "three"; "four"].
Proof. vm_compute. reflexivity. Qed.
